(** * quic-relay: handler chain of the QUIC reverse proxy

    A shallow embedding of the handlers of [internal/handler]
    (simple-router, sni-router, ratelimit-global, forwarder) and the
    properties of the specification that concern them.

    Conventions of the embedding:
    - a Go [error] is an [option string]: [None] is [nil], [Some msg] an
      error with that message;
    - a constructor returning [(Handler, error)] is a sum, [inl msg] the
      error and [inr h] the handler;
    - [uint64] and [int64] values are integers in [Z]; the wrap-around of
      the unsigned atomic counters is written out with [wrap64];
    - a function that can hit a Go run-time panic returns an [Outcome]. *)

From Stdlib Require Import ZArith Lia List String.
From Stdlib.Strings Require Import Byte.
From stdpp Require Import base gmap strings list.

Local Open Scope Z_scope.
Local Open Scope string_scope.

(** ** Vocabulary shared by all handlers *)

Inductive Action := Continue | Handled | Drop.

Inductive Direction := Inbound | Outbound.

(** [Result{Action: a, Error: e}]. *)
Record Result := mkResult { action : Action; error : option string }.

Inductive Outcome (A : Type) :=
| Returns (a : A)
| Panics (msg : string).
Arguments Returns {A} a.
Arguments Panics {A} msg.

Definition uint64_modulus : Z := 2 ^ 64.

(** Reduction of an integer to its [uint64] representative. *)
Definition wrap64 (z : Z) : Z := z mod uint64_modulus.

Record UDPAddr := { IP : string; Port : Z }.

(** A socket handle (the identity of a [*net.UDPConn]). *)
Abbreviation Conn := nat.

(** A pointer to a [Session] in the session store. *)
Abbreviation SessionPtr := nat.

Record ClientHello := { SNI : string; ALPN : list string }.

(** Values of the context's key-value bag ([any] in the source): the
    two types the handlers store and read, and everything else. *)
Inductive Value :=
| VString (s : string)
| VInt64 (n : Z)
| VOther.

(** Modelled from the spec: the [Context] struct and its accessors
    [Set], [GetString], [GetInt64] are declared in a file of the package
    that is not among the sources.  The fields are the ones the spec
    lists (client address, initial packet bytes, parsed ClientHello, the
    key-value bag, the proxy's listen socket, the attached session);
    the getters return the zero value for a key that is absent or holds
    a value of another type, as the tests rely on. *)
Record Context := mkContext {
  ClientAddr : option UDPAddr;
  InitialPacket : list byte;
  Hello : option ClientHello;
  values : gmap string Value;
  ProxyConn : option Conn;
  CtxSession : option SessionPtr  (* the field [Session] *)
}.

Definition emptyContext : Context :=
  {| ClientAddr := None; InitialPacket := []; Hello := None;
     values := ∅; ProxyConn := None; CtxSession := None |}.

(** Modelled from the spec: [Context.Set], absent from the sources; it
    stores a value under a key of the bag. *)
Definition Set_ (ctx : Context) (key : string) (v : Value) : Context :=
  {| ClientAddr := ClientAddr ctx; InitialPacket := InitialPacket ctx;
     Hello := Hello ctx; values := <[key := v]> (values ctx);
     ProxyConn := ProxyConn ctx; CtxSession := CtxSession ctx |}.

(** Modelled from the spec: [Context.GetString], absent from the
    sources; the string under the key, or the empty string. *)
Definition GetString (ctx : Context) (key : string) : string :=
  match values ctx !! key with
  | Some (VString s) => s
  | _ => ""
  end.

(** Modelled from the spec: [Context.GetInt64], absent from the
    sources; the integer under the key, or zero. *)
Definition GetInt64 (ctx : Context) (key : string) : Z :=
  match values ctx !! key with
  | Some (VInt64 n) => n
  | _ => 0
  end.

(** A [json.RawMessage] handed to a handler factory, by what the factory
    makes of it: nothing to decode ([len(raw) == 0]), a document
    [json.Unmarshal] rejects, or a document it decodes into the config
    struct (absent keys keep their zero value). *)
Inductive RawMessage (C : Type) :=
| RawEmpty
| RawInvalid (err : string)
| RawDecodes (cfg : C).
Arguments RawEmpty {C}.
Arguments RawInvalid {C} err.
Arguments RawDecodes {C} cfg.

(** [var cfg C; if len(raw) > 0 { json.Unmarshal(raw, &cfg) }]. *)
Definition decode {C : Type} (zero : C) (what : string) (raw : RawMessage C)
  : string + C :=
  match raw with
  | RawEmpty => inr zero
  | RawInvalid err => inl (what +:+ err)
  | RawDecodes cfg => inr cfg
  end.

(** The process environment; [os.Getenv] gives the empty string for a
    variable that is not set. *)
Definition Getenv (env : gmap string string) (name : string) : string :=
  default "" (env !! name).

(** ** simple-router *)

Module StaticRouter.

Record StaticConfig := { Backend : string; Backends : list string }.

Definition zeroConfig : StaticConfig := {| Backend := ""; Backends := [] |}.

Record StaticHandler := { backends : list string; counter : Z }.

Definition missingBackend : string :=
  "simple-router requires 'backend', 'backends' config or QUIC_RELAY_BACKEND env".

Definition NewStaticHandler (env : gmap string string)
    (raw : RawMessage StaticConfig) : string + StaticHandler :=
  match decode zeroConfig "invalid static config: " raw with
  | inl err => inl err
  | inr cfg =>
      match Backends cfg with
      | _ :: _ => inr {| backends := Backends cfg; counter := 0 |}
      | [] =>
          if decide (Backend cfg = "") then
            let e := Getenv env "QUIC_RELAY_BACKEND" in
            if decide (e = "") then
              inl missingBackend
            else inr {| backends := [e]; counter := 0 |}
          else inr {| backends := [Backend cfg]; counter := 0 |}
      end
  end.

Definition Name (h : StaticHandler) : string := "simple-router".

Definition OnConnect (h : StaticHandler) (ctx : Context)
  : Outcome (Result * Context * StaticHandler) :=
  let c := wrap64 (counter h + 1) in
  let idx := wrap64 (c - 1) in
  let h' := {| backends := backends h; counter := c |} in
  match backends h with
  | [] => Panics "integer divide by zero"
  | _ :: _ =>
      match backends h !! Z.to_nat (idx mod Z.of_nat (length (backends h))) with
      | Some backend =>
          Returns (mkResult Continue None,
                   Set_ ctx "backend" (VString backend), h')
      | None => Panics "index out of range"
      end
  end.

Definition OnPacket (h : StaticHandler) (ctx : Context) (packet : list byte)
    (dir : Direction) : Result :=
  mkResult Continue None.

Definition OnDisconnect (h : StaticHandler) (ctx : Context) : unit := tt.

(** A sequence of [OnConnect] calls on one handler, each with its own
    context; the handler after the last call. *)
Fixpoint connects (h : StaticHandler) (ctxs : list Context)
  : Outcome StaticHandler :=
  match ctxs with
  | [] => Returns h
  | ctx :: rest =>
      match OnConnect h ctx with
      | Panics msg => Panics msg
      | Returns (_, _, h') => connects h' rest
      end
  end.

End StaticRouter.

(** ** sni-router *)

Module SniRouter.

(** A decoded JSON value of the [routes] object, as far as the factory
    tells values apart: a string, an array (of which each element is
    [Some s] for a string and [None] for anything else), anything else. *)
Inductive JSON :=
| JString (s : string)
| JArray (items : list (option string))
| JOther.

Record route := mkRoute { backends : list string; counter : Z }.

(** The index [idx%uint64(len(r.backends))] of [route.next], where
    [idx] is the counter after the atomic increment, minus one. *)
Definition pick (r : route) : Z :=
  wrap64 (wrap64 (counter r + 1) - 1) mod Z.of_nat (length (backends r)).

Definition advance (r : route) : route :=
  {| backends := backends r; counter := wrap64 (counter r + 1) |}.

Definition next (r : route) : Outcome (string * route) :=
  match backends r with
  | [] => Panics "integer divide by zero"
  | _ :: _ =>
      match backends r !! Z.to_nat (pick r) with
      | Some b => Returns (b, advance r)
      | None => Panics "index out of range"
      end
  end.

Record DynamicHandler := { routes : gmap string route }.

(** The [[]any] case of the type switch: every element must be a
    string. *)
Fixpoint strings_of (sni : string) (v : list (option string))
  : string + list string :=
  match v with
  | [] => inr []
  | Some s :: rest =>
      match strings_of sni rest with
      | inl err => inl err
      | inr l => inr (s :: l)
      end
  | None :: _ => inl ("invalid backend for SNI " +:+ sni +:+ ": expected string")
  end.

Definition backends_of (sni : string) (val : JSON) : string + list string :=
  match val with
  | JString v => inr [v]
  | JArray v => strings_of sni v
  | JOther =>
      inl ("invalid backend for SNI " +:+ sni +:+ ": expected string or array")
  end.

(** The loop [for sni, val := range cfg.Routes]; [entries] are the
    entries of the map in the order the loop visits them. *)
Fixpoint build (entries : list (string * JSON)) (acc : gmap string route)
  : string + gmap string route :=
  match entries with
  | [] => inr acc
  | (sni, val) :: rest =>
      match backends_of sni val with
      | inl err => inl err
      | inr [] => inl ("empty backends for SNI " +:+ sni)
      | inr (b :: bs) => build rest (<[sni := mkRoute (b :: bs) 0]> acc)
      end
  end.

Record DynamicConfig := { Routes : list (string * JSON) }.

Definition NewDynamicHandler (raw : RawMessage DynamicConfig)
  : string + DynamicHandler :=
  match decode {| Routes := [] |} "invalid dynamic config: " raw with
  | inl err => inl err
  | inr cfg =>
      match Routes cfg with
      | [] => inl "dynamic handler requires 'routes' config"
      | _ :: _ =>
          match build (Routes cfg) ∅ with
          | inl err => inl err
          | inr rs => inr {| routes := rs |}
          end
      end
  end.

Definition Name (h : DynamicHandler) : string := "sni-router".

Definition OnConnect (h : DynamicHandler) (ctx : Context)
  : Outcome (Result * Context * DynamicHandler) :=
  match Hello ctx with
  | None => Returns (mkResult Drop (Some "no ClientHello"), ctx, h)
  | Some hello =>
      let sni := SNI hello in
      if decide (sni = "") then
        Returns (mkResult Drop (Some "no SNI"), ctx, h)
      else
        match routes h !! sni with
        | None =>
            Returns (mkResult Drop (Some ("unknown SNI: " +:+ sni)), ctx, h)
        | Some r =>
            match next r with
            | Panics msg => Panics msg
            | Returns (b, r') =>
                Returns (mkResult Continue None,
                         Set_ ctx "backend" (VString b),
                         {| routes := <[sni := r']> (routes h) |})
            end
        end
  end.

Definition OnPacket (h : DynamicHandler) (ctx : Context) (packet : list byte)
    (dir : Direction) : Result :=
  mkResult Continue None.

Definition OnDisconnect (h : DynamicHandler) (ctx : Context) : unit := tt.

(** A sequence of [OnConnect] calls on one handler, each with its own
    context; the handler after the last call. *)
Fixpoint connects (h : DynamicHandler) (ctxs : list Context)
  : Outcome DynamicHandler :=
  match ctxs with
  | [] => Returns h
  | ctx :: rest =>
      match OnConnect h ctx with
      | Panics msg => Panics msg
      | Returns (_, _, h') => connects h' rest
      end
  end.

(** Whether a context carries the given SNI, and how many contexts of a
    sequence do. *)
Definition carries (sni : string) (ctx : Context) : bool :=
  match Hello ctx with
  | Some hello => bool_decide (SNI hello = sni)
  | None => false
  end.

Fixpoint hits (sni : string) (ctxs : list Context) : nat :=
  match ctxs with
  | [] => 0%nat
  | ctx :: rest =>
      if carries sni ctx then S (hits sni rest) else hits sni rest
  end.

(** The positions [route.next] picks on [K] calls in a row. *)
Fixpoint picks (K : nat) (r : route) : list Z :=
  match K with
  | O => []
  | S K' => pick r :: picks K' (advance r)
  end.

(** How many of the picks fall on position [i]. *)
Definition picked (i : Z) (l : list Z) : Z :=
  Z.of_nat (length (filter (fun j => j = i) l)).

(** A route after [n] calls of [next]: the same backends, the counter
    moved [n] times. *)
Definition moved (n : nat) (r : route) : route :=
  mkRoute (backends r) (wrap64 (counter r + Z.of_nat n)).

(** A context as the proxy hands it to the chain for a ClientHello with
    the given SNI. *)
Definition helloContext (sni : string) : Context :=
  {| ClientAddr := None; InitialPacket := [];
     Hello := Some {| SNI := sni; ALPN := [] |};
     values := ∅; ProxyConn := None; CtxSession := None |}.

(** What the factory establishes for every route, and every call keeps:
    a backend list that is not empty and a counter that is a [uint64]. *)
Definition route_ok (r : route) : Prop :=
  backends r <> [] /\ 0 <= counter r < uint64_modulus.

(** An entry of [routes] the factory accepts: a string, or an array of
    strings that is not empty. *)
Definition accepted (entry : string * JSON) : bool :=
  match backends_of (fst entry) (snd entry) with
  | inr (_ :: _) => true
  | _ => false
  end.

End SniRouter.

(** ** ratelimit-global *)

Module RateLimit.

Record RateLimitGlobalConfig := { MaxParallelConnections : Z }.

Record RateLimitGlobalHandler := { maxParallelConnections : Z }.

Definition NewRateLimitGlobalHandler (raw : RawMessage RateLimitGlobalConfig)
  : string + RateLimitGlobalHandler :=
  match decode {| MaxParallelConnections := 0 |}
               "invalid ratelimit-global config: " raw with
  | inl err => inl err
  | inr cfg =>
      if decide (MaxParallelConnections cfg <= 0) then
        inl "ratelimit-global requires 'max_parallel_connections' > 0"
      else
        inr {| maxParallelConnections := MaxParallelConnections cfg |}
  end.

Definition Name (h : RateLimitGlobalHandler) : string := "ratelimit-global".

(** The reason of a drop, [fmt.Errorf("max connections exceeded
    (%d/%d)", ...)]; the decimal rendering of the two numbers is left
    abstract in [digits]. *)
Definition exceeded (digits : Z -> string) (current limit : Z) : string :=
  "max connections exceeded (" +:+ digits current +:+ "/" +:+ digits limit +:+ ")".

Definition OnConnect (digits : Z -> string) (h : RateLimitGlobalHandler)
    (ctx : Context) : Result * Context * RateLimitGlobalHandler :=
  let currentCount := GetInt64 ctx "_session_count" in
  if decide (currentCount >= maxParallelConnections h) then
    (mkResult Drop (Some (exceeded digits currentCount (maxParallelConnections h))),
     ctx, h)
  else (mkResult Continue None, ctx, h).

Definition OnPacket (h : RateLimitGlobalHandler) (ctx : Context)
    (packet : list byte) (dir : Direction) : Result :=
  mkResult Continue None.

Definition OnDisconnect (h : RateLimitGlobalHandler) (ctx : Context) : unit := tt.

End RateLimit.

(** ** forwarder *)

Module Forwarder.

(** Modelled from the spec: the [Session] struct and its methods
    ([SetClientAddr], [ClientAddr], [Touch], [IsClosed], [Close]) are
    declared in a file of the package that is not among the sources.
    The fields are the ones [OnConnect] initialises and the spec lists;
    [closed] is the atomic closed-flag and [LastActivity] the atomic
    last-activity timestamp in seconds. *)
Record Session := mkSession {
  ID : Z;
  BackendAddr : UDPAddr;
  BackendConn : Conn;
  CreatedAt : Z;
  clientAddr : option UDPAddr;
  LastActivity : Z;
  closed : bool
}.

Definition markClosed (s : Session) : Session :=
  {| ID := ID s; BackendAddr := BackendAddr s; BackendConn := BackendConn s;
     CreatedAt := CreatedAt s; clientAddr := clientAddr s;
     LastActivity := LastActivity s; closed := true |}.

Definition setLastActivity (now : Z) (s : Session) : Session :=
  {| ID := ID s; BackendAddr := BackendAddr s; BackendConn := BackendConn s;
     CreatedAt := CreatedAt s; clientAddr := clientAddr s;
     LastActivity := now; closed := closed s |}.

(** The calls the forwarder makes on sockets, on the buffer pool and on
    the proxy, in the order they are issued.  A write or read is
    recorded when it is called, whatever it returns. *)
Inductive Event :=
| EDial (c : Conn) (to : UDPAddr)
| EBackendWrite (c : Conn) (p : list byte)
| EBackendClose (c : Conn)
| ESetReadDeadline (c : Conn)
| EBackendRead (c : Conn)
| ENotifyServerPacket (p : list byte)
| EClientWrite (pc : Conn) (p : list byte) (to : option UDPAddr)
| EGetBuffer
| EPutBuffer
| EGo (session : SessionPtr).

(** The state the tasks share: the sessions behind their pointers and
    the calls issued so far. *)
Record World := mkWorld { sessions : list Session; trace : list Event }.

(** The atomic steps of the forwarder's code.  [Load] dereferences a
    session pointer; [CompareAndSwapClosed] is [Session.Close()], the
    compare-and-swap of the closed-flag from false to true, which reports
    whether this caller made the change; [StoreLastActivity] is the
    store of [Session.Touch()]. *)
Inductive Op : Type -> Type :=
| Emit (e : Event) : Op unit
| New (s : Session) : Op SessionPtr
| Load (p : SessionPtr) : Op (option Session)
| CompareAndSwapClosed (p : SessionPtr) : Op bool
| StoreLastActivity (p : SessionPtr) (now : Z) : Op unit.

Definition perform {X : Type} (op : Op X) (w : World) : X * World :=
  match op in Op T return T * World with
  | Emit e => (tt, mkWorld (sessions w) (trace w ++ [e]))
  | New s => (length (sessions w), mkWorld (sessions w ++ [s]) (trace w))
  | Load p => (sessions w !! p, w)
  | CompareAndSwapClosed p =>
      match sessions w !! p with
      | Some s =>
          if closed s then (false, w)
          else (true, mkWorld (<[p := markClosed s]> (sessions w)) (trace w))
      | None => (false, w)
      end
  | StoreLastActivity p now =>
      (tt, mkWorld (alter (setLastActivity now) p (sessions w)) (trace w))
  end.

(** Code as a sequence of atomic steps, each continuing with the value
    of the step; the unit of interleaving between tasks. *)
Inductive Prog (A : Type) : Type :=
| Ret (a : A)
| Panic (msg : string)
| Vis {X : Type} (op : Op X) (k : X -> Prog A).
Arguments Ret {A} a.
Arguments Panic {A} msg.
Arguments Vis {A X} op k.

Fixpoint bind {A B : Type} (m : Prog A) (f : A -> Prog B) : Prog B :=
  match m with
  | Ret a => f a
  | Panic msg => Panic msg
  | Vis op k => Vis op (fun x => bind (k x) f)
  end.

Notation "x <- m ;; f" := (bind m (fun x => f))
  (at level 100, m at next level, right associativity).
Notation "m ;;; f" := (bind m (fun _ => f))
  (at level 100, right associativity).

Definition emit (e : Event) : Prog unit := Vis (Emit e) Ret.

(** One task running alone: all its steps in a row. *)
Fixpoint run {A : Type} (m : Prog A) (w : World) : Outcome A * World :=
  match m with
  | Ret a => (Returns a, w)
  | Panic msg => (Panics msg, w)
  | Vis op k => let '(x, w') := perform op w in run (k x) w'
  end.

Definition deref (p : SessionPtr) : Prog Session :=
  Vis (Load p) (fun o =>
    match o with
    | Some s => Ret s
    | None => Panic "invalid memory address or nil pointer dereference"
    end).

(** Modelled from the spec: [Session.IsClosed], absent from the
    sources; an atomic load of the closed-flag. *)
Definition IsClosed (p : SessionPtr) : Prog bool :=
  s <- deref p ;; Ret (closed s).

(** Modelled from the spec: [Session.Touch], absent from the sources;
    it stores the current time in seconds as the last activity. *)
Definition Touch (now : Z) (p : SessionPtr) : Prog unit :=
  Vis (StoreLastActivity p now) Ret.

(** Modelled from the spec: [Session.Close], absent from the sources;
    the compare-and-swap on the closed-flag, true for the one caller
    that set it. *)
Definition Close (p : SessionPtr) : Prog bool :=
  Vis (CompareAndSwapClosed p) Ret.

Record ForwarderHandler := { sessionCounter : Z }.

Definition NewForwarderHandler {C : Type} (raw : RawMessage C)
  : string + ForwarderHandler :=
  inr {| sessionCounter := 0 |}.

Definition Name (h : ForwarderHandler) : string := "forwarder".

(** What the network and the clock answer during one [OnConnect]. *)
Record ConnectEnv := {
  ResolveUDPAddr : string -> string + UDPAddr;
  DialUDP : UDPAddr -> string + Conn;
  connectNow : Z;
  initialWriteErr : option string
}.

Definition attach (ctx : Context) (p : SessionPtr) : Context :=
  {| ClientAddr := ClientAddr ctx; InitialPacket := InitialPacket ctx;
     Hello := Hello ctx; values := values ctx;
     ProxyConn := ProxyConn ctx; CtxSession := Some p |}.

Definition clearInitialPacket (ctx : Context) : Context :=
  {| ClientAddr := ClientAddr ctx; InitialPacket := [];
     Hello := Hello ctx; values := values ctx;
     ProxyConn := ProxyConn ctx; CtxSession := CtxSession ctx |}.

Definition OnConnect (net : ConnectEnv) (h : ForwarderHandler) (ctx : Context)
  : Prog (Result * Context * ForwarderHandler) :=
  let backend := GetString ctx "backend" in
  if decide (backend = "") then
    Ret (mkResult Drop (Some "no backend address"), ctx, h)
  else
    match ResolveUDPAddr net backend with
    | inl err => Ret (mkResult Drop (Some err), ctx, h)
    | inr backendAddr =>
        match DialUDP net backendAddr with
        | inl err => Ret (mkResult Drop (Some err), ctx, h)
        | inr backendConn =>
            emit (EDial backendConn backendAddr) ;;;
            let now := connectNow net in
            let id := wrap64 (sessionCounter h + 1) in
            let h' := {| sessionCounter := id |} in
            session <- Vis (New {| ID := id; BackendAddr := backendAddr;
                                   BackendConn := backendConn; CreatedAt := now;
                                   clientAddr := ClientAddr ctx;
                                   LastActivity := now; closed := false |}) Ret ;;
            let ctx1 := attach ctx session in
            let finish :=
              emit (EGo session) ;;;
              Ret (mkResult Handled None, clearInitialPacket ctx1, h') in
            match InitialPacket ctx1 with
            | [] => finish
            | _ :: _ =>
                emit (EBackendWrite backendConn (InitialPacket ctx1)) ;;;
                match initialWriteErr net with
                | Some err =>
                    emit (EBackendClose backendConn) ;;;
                    Ret (mkResult Drop (Some err), ctx1, h')
                | None => finish
                end
            end
        end
    end.

(** What the clock and the backend socket answer during one [OnPacket]. *)
Record PacketEnv := { packetNow : Z; backendWriteErr : option string }.

Definition OnPacket (env : PacketEnv) (h : ForwarderHandler) (ctx : Context)
    (packet : list byte) (dir : Direction) : Prog Result :=
  match CtxSession ctx with
  | None => Ret (mkResult Drop (Some "no session"))
  | Some session =>
      isClosed <- IsClosed session ;;
      if isClosed : bool then Ret (mkResult Drop None)
      else
        Touch (packetNow env) session ;;;
        match dir with
        | Inbound =>
            (* the arguments of [debug.Printf] are evaluated before the
               call: [packet[0]] needs a first byte *)
            match packet with
            | [] => Panic "index out of range [0] with length 0"
            | _ :: _ =>
                s <- deref session ;;
                emit (EBackendWrite (BackendConn s) packet) ;;;
                match backendWriteErr env with
                | Some err => Ret (mkResult Drop (Some err))
                | None => Ret (mkResult Handled None)
                end
            end
        | Outbound => Ret (mkResult Handled None)
        end
  end.

Definition OnDisconnect (h : ForwarderHandler) (ctx : Context) : Prog unit :=
  match CtxSession ctx with
  | None => Ret tt
  | Some session =>
      won <- Close session ;;
      if won : bool then
        s <- deref session ;;
        emit (EBackendClose (BackendConn s))
      else Ret tt
  end.

(** What the backend socket, the clock and the listen socket answer
    during one round of the pump: the result of the blocking read
    (an error, or the datagram [( *buf)[:n]]) and of the write to the
    client. *)
Record PumpEnv := {
  readResult : string + list byte;
  pumpNow : Z;
  clientWriteErr : option string
}.

(** One round of the loop of [backendToClient]; [true] when the loop
    goes round again, [false] when the function returns.  The index
    [( *buf)[0]] of the debug line is into the pooled buffer, which is
    never empty. *)
Definition pumpRound (env : PumpEnv) (ctx : Context) (session : SessionPtr)
  : Prog bool :=
  isClosed <- IsClosed session ;;
  if isClosed : bool then Ret false
  else
    emit EGetBuffer ;;;
    s <- deref session ;;
    emit (ESetReadDeadline (BackendConn s)) ;;;
    emit (EBackendRead (BackendConn s)) ;;;
    match readResult env with
    | inl err => emit EPutBuffer ;;; Ret false
    | inr datagram =>
        isClosed <- IsClosed session ;;
        if isClosed : bool then emit EPutBuffer ;;; Ret false
        else
          Touch (pumpNow env) session ;;;
          emit (ENotifyServerPacket datagram) ;;;
          match ProxyConn ctx with
          | Some proxyConn =>
              s <- deref session ;;
              emit (EClientWrite proxyConn datagram (clientAddr s)) ;;;
              match clientWriteErr env with
              | Some err => emit EPutBuffer ;;; Ret false
              | None => emit EPutBuffer ;;; Ret true
              end
          | None => emit EPutBuffer ;;; Ret true
          end
    end.

(** [backendToClient] against a script of answers, one per round; the
    result tells whether the function returned ([true]) or is waiting in
    the loop for an answer the script does not give ([false]). *)
Fixpoint backendToClient (script : list PumpEnv) (ctx : Context)
    (session : SessionPtr) : Prog bool :=
  match script with
  | [] => Ret false
  | env :: rest =>
      again <- pumpRound env ctx session ;;
      if again : bool then backendToClient rest ctx session else Ret true
  end.

(** *** Tasks running concurrently

    The proxy calls the handler from several tasks: the listen task
    ([OnPacket], [OnDisconnect]), the idle sweeper ([OnDisconnect]) and
    one pump per session.  A machine holds the shared state and a pool
    of tasks, each a call with what remains of its code; the scheduler
    starts a call or lets one task take one atomic step. *)
Inductive Call :=
| CallOnPacket (env : PacketEnv) (packet : list byte) (dir : Direction)
| CallOnDisconnect
| CallBackendToClient (script : list PumpEnv).

Definition discard {A : Type} (m : Prog A) : Prog unit := m ;;; Ret tt.

Definition code (h : ForwarderHandler) (ctx : Context) (call : Call)
  : Prog unit :=
  match call with
  | CallOnPacket env packet dir => discard (OnPacket env h ctx packet dir)
  | CallOnDisconnect => OnDisconnect h ctx
  | CallBackendToClient script =>
      match CtxSession ctx with
      | Some session => discard (backendToClient script ctx session)
      | None => Ret tt
      end
  end.

Record Machine := mkMachine { world : World; pool : list (Call * Prog unit) }.

Inductive Sched :=
| Start (call : Call)
| Step (i : nat).

Definition sched (h : ForwarderHandler) (ctx : Context) (m : Machine)
    (e : Sched) : Machine :=
  match e with
  | Start call => mkMachine (world m) (pool m ++ [(call, code h ctx call)])
  | Step i =>
      match pool m !! i with
      | Some (call, Vis op k) =>
          let '(x, w') := perform op (world m) in
          mkMachine w' (<[i := (call, k x)]> (pool m))
      | _ => m
      end
  end.

Definition schedule (h : ForwarderHandler) (ctx : Context) (w : World)
    (es : list Sched) : Machine :=
  fold_left (sched h ctx) es (mkMachine w []).

Definition isDisconnect (call : Call) : bool :=
  match call with
  | CallOnDisconnect => true
  | _ => false
  end.

(** How many times a socket has been closed. *)
Fixpoint closes (c : Conn) (tr : list Event) : nat :=
  match tr with
  | [] => 0%nat
  | EBackendClose c' :: rest =>
      if decide (c' = c) then S (closes c rest) else closes c rest
  | _ :: rest => closes c rest
  end.

(** Sample data: a backend that resolves and can be dialed, with no
    error on the first write, and a session as [OnConnect] leaves it. *)
Definition backendAddress : UDPAddr := {| IP := "127.0.0.1"; Port := 9 |}.

Definition reachable : ConnectEnv :=
  {| ResolveUDPAddr := fun _ => inr backendAddress;
     DialUDP := fun _ => inr 5%nat;
     connectNow := 100;
     initialWriteErr := None |}.

Definition unwritable : ConnectEnv :=
  {| ResolveUDPAddr := fun _ => inr backendAddress;
     DialUDP := fun _ => inr 5%nat;
     connectNow := 100;
     initialWriteErr := Some "write: connection refused" |}.

Definition readFails : PumpEnv :=
  {| readResult := inl "read: i/o timeout"; pumpNow := 400;
     clientWriteErr := None |}.

(** A context as the routers leave it for the forwarder: the backend is
    chosen, the first datagram is buffered. *)
Definition routedContext (initial : list byte) : Context :=
  {| ClientAddr := None; InitialPacket := initial; Hello := None;
     values := {[ "backend" := VString "127.0.0.1:9" ]};
     ProxyConn := Some 3%nat; CtxSession := None |}.

Definition openSession : Session :=
  {| ID := 1; BackendAddr := backendAddress; BackendConn := 5%nat;
     CreatedAt := 100; clientAddr := None; LastActivity := 100;
     closed := false |}.

(** In the calls of one task, every write to the client comes right
    after the notification of the same datagram; [prev] is the call
    before the first of [tr]. *)
Fixpoint notified (prev : option Event) (tr : list Event) : Prop :=
  match tr with
  | [] => True
  | e :: rest =>
      match e with
      | EClientWrite _ p _ => prev = Some (ENotifyServerPacket p)
      | _ => True
      end /\ notified (Some e) rest
  end.

(** *** Bookkeeping for the close of one session

    For the session behind [p] with backend socket [c]: where a task
    stands with respect to the close.  A task is [Quiet] when its call
    never closes (OnPacket, the pump); an OnDisconnect is [Fresh] before
    its compare-and-swap, [Winner] when it has made the swap and not yet
    closed the socket, [Finished] afterwards or when it lost. *)
Inductive Phase := Quiet | Fresh | Winner | Finished.

#[global] Instance Phase_eq_dec : EqDecision Phase.
Proof. solve_decision. Defined.

Definition token (a : Phase) : nat :=
  match a with
  | Winner => 1%nat
  | _ => 0%nat
  end.

Definition flagged (a : Phase) : bool :=
  match a with
  | Winner | Finished => true
  | _ => false
  end.

Definition tokens (phases : list Phase) : nat :=
  foldr (fun a n => (token a + n)%nat) 0%nat phases.

Definition owns (p : SessionPtr) (c : Conn) (w : World) : Prop :=
  exists s, sessions w !! p = Some s /\ BackendConn s = c.

Definition flag (p : SessionPtr) (w : World) : bool :=
  match sessions w !! p with
  | Some s => closed s
  | None => false
  end.

Definition bit (b : bool) : nat := if b then 1%nat else 0%nat.

(** One atomic step of a task, from phase [a] to [a'] and from world
    [w] to [w']: the closes done, the close still owed by a winner and
    the flag stay in balance. *)
Definition moves (p : SessionPtr) (c : Conn) (a a' : Phase) (w w' : World)
  : Prop :=
  owns p c w'
  /\ (flag p w = true -> flag p w' = true)
  /\ (closes c (trace w') + token a' + bit (flag p w)
      = closes c (trace w) + token a + bit (flag p w'))%nat
  /\ (a = Quiet -> a' = Quiet /\ flag p w' = flag p w)
  /\ (a <> Quiet -> a' <> Quiet)
  /\ (flagged a' = true -> flag p w' = true).

(** The code that remains of a task fits its phase. *)
Fixpoint follows {A : Type} (p : SessionPtr) (c : Conn) (a : Phase)
    (m : Prog A) : Prop :=
  match m with
  | Ret _ | Panic _ => a = Quiet \/ a = Finished
  | Vis op k =>
      forall w, owns p c w -> (flagged a = true -> flag p w = true) ->
        exists a', moves p c a a' w (snd (perform op w))
                   /\ follows p c a' (k (fst (perform op w)))
  end.

(** A task that has come to its end. *)
Definition ended (t : Call * Prog unit) : bool :=
  match snd t with
  | Vis _ _ => false
  | _ => true
  end.

(** A task and its phase: what remains of its code fits the phase, and
    the quiet tasks are the calls other than OnDisconnect. *)
Definition fits (p : SessionPtr) (c : Conn) (a : Phase)
    (t : Call * Prog unit) : Prop :=
  follows p c a (snd t) /\ (a = Quiet <-> isDisconnect (fst t) = false).

(** The invariant of a machine whose tasks work on the session behind
    [p]: the closes of its socket since [before], plus the close a winner
    still owes, are one if the flag is set and none if it is not. *)
Definition balanced (p : SessionPtr) (c : Conn) (before : nat) (m : Machine)
  : Prop :=
  exists phases,
    Forall2 (fits p c) phases (pool m)
    /\ owns p c (world m)
    /\ (closes c (trace (world m)) + tokens phases
        = before + bit (flag p (world m)))%nat
    /\ (forall a, a ∈ phases -> flagged a = true -> flag p (world m) = true)
    /\ ((forall a, a ∈ phases -> a = Quiet) -> flag p (world m) = false).

(** *** Sequences of calls and what they leave in the trace *)

(** A sequence of [OnConnect] calls on one handler, each with its own
    answers of the network and its own context. *)
Fixpoint OnConnects (h : ForwarderHandler) (calls : list (ConnectEnv * Context))
  : Prog ForwarderHandler :=
  match calls with
  | [] => Ret h
  | (net, ctx) :: rest =>
      r <- OnConnect net h ctx ;; OnConnects (snd r) rest
  end.

(** A sequence of [OnPacket] calls on one context, one per packet. *)
Fixpoint OnPackets (h : ForwarderHandler) (ctx : Context) (dir : Direction)
    (packets : list (PacketEnv * list byte)) : Prog (list Result) :=
  match packets with
  | [] => Ret []
  | (env, packet) :: rest =>
      r <- OnPacket env h ctx packet dir ;;
      rs <- OnPackets h ctx dir rest ;;
      Ret (r :: rs)
  end.

(** The calls that touch a backend socket from the client side: dial,
    write, close. *)
Definition towardsBackend (e : Event) : bool :=
  match e with
  | EDial _ _ | EBackendWrite _ _ | EBackendClose _ => true
  | _ => false
  end.

(** The result [OnPacket] gives for a packet it has written. *)
Definition written (env : PacketEnv) : Result :=
  match backendWriteErr env with
  | Some err => mkResult Drop (Some err)
  | None => mkResult Handled None
  end.

(** The datagrams written to clients, in order, each with the socket
    used and the destination. *)
Definition clientWrites (tr : list Event)
  : list (Conn * list byte * option UDPAddr) :=
  omap (fun e => match e with
                 | EClientWrite pc p to => Some (pc, p, to)
                 | _ => None
                 end) tr.

(** The datagrams the proxy was notified of, in order. *)
Definition notifications (tr : list Event) : list (list byte) :=
  omap (fun e => match e with
                 | ENotifyServerPacket p => Some p
                 | _ => None
                 end) tr.

(** The buffers taken from the pool and not given back. *)
Fixpoint held (tr : list Event) : Z :=
  match tr with
  | [] => 0
  | EGetBuffer :: rest => held rest + 1
  | EPutBuffer :: rest => held rest - 1
  | _ :: rest => held rest
  end.

(** The answers of a round in which the backend sends a datagram and
    the write to the client succeeds. *)
Definition delivers (input : list byte * Z) : PumpEnv :=
  {| readResult := inr (fst input); pumpNow := snd input;
     clientWriteErr := None |}.

End Forwarder.

(** * Properties *)

(** ** simple-router: construction *)

Section StaticRouterFacts.
Import StaticRouter.

(** C2, as amended.  A simple-router configured with neither [backend]
    nor [backends] (no config at all, or a config in which both are
    empty) is built from the environment variable QUIC_RELAY_BACKEND: its
    value is the one backend of the handler, and only when that value is
    empty does construction fail. *)
Theorem NewStaticHandler_env_fallback (env : gmap string string) :
  let fallback :=
    if decide (Getenv env "QUIC_RELAY_BACKEND" = "") then inl missingBackend
    else inr {| backends := [Getenv env "QUIC_RELAY_BACKEND"]; counter := 0 |} in
  NewStaticHandler env RawEmpty = fallback
  /\ NewStaticHandler env (RawDecodes {| Backend := ""; Backends := [] |}) = fallback.
Proof.
  unfold NewStaticHandler; simpl.
  destruct (decide (Getenv env "QUIC_RELAY_BACKEND" = "")); split; reflexivity.
Qed.

(** C2, as stated, fails: with HYPROXY_BACKEND set (and nothing else)
    construction of an unconfigured simple-router fails; the variable is
    not read. *)
Lemma NewStaticHandler_ignores_HYPROXY_BACKEND :
  let env : gmap string string := {[ "HYPROXY_BACKEND" := "10.0.0.1:5520" ]} in
  Getenv env "HYPROXY_BACKEND" = "10.0.0.1:5520"
  /\ NewStaticHandler env RawEmpty = inl missingBackend
  /\ NewStaticHandler env (RawDecodes {| Backend := ""; Backends := [] |})
     = inl missingBackend.
Proof. vm_compute. repeat split; reflexivity. Qed.

(** C3, as amended.  A config that supplies both [backend] and
    [backends] non-empty is accepted: the handler is built from the list
    [backends] and [backend] is ignored. *)
Theorem NewStaticHandler_both_keys (env : gmap string string)
    (cfg : StaticConfig) :
  Backend cfg <> "" -> Backends cfg <> [] ->
  NewStaticHandler env (RawDecodes cfg)
  = inr {| backends := Backends cfg; counter := 0 |}.
Proof.
  intros _ Hlist. unfold NewStaticHandler; simpl.
  destruct (Backends cfg); [contradiction | reflexivity].
Qed.

Lemma NewStaticHandler_both_keys_witness :
  NewStaticHandler ∅
    (RawDecodes {| Backend := "10.0.0.1:5520"; Backends := ["10.0.0.2:5520"] |})
  = inr {| backends := ["10.0.0.2:5520"]; counter := 0 |}.
Proof.
  apply (NewStaticHandler_both_keys ∅
           {| Backend := "10.0.0.1:5520"; Backends := ["10.0.0.2:5520"] |});
    simpl; congruence.
Defined.

(** C3, as stated, fails: construction succeeds on a config with both
    keys. *)
Lemma NewStaticHandler_both_keys_accepted :
  ~ (exists err,
       NewStaticHandler ∅
         (RawDecodes {| Backend := "10.0.0.1:5520";
                        Backends := ["10.0.0.2:5520"; "10.0.0.3:5520"] |})
       = inl err).
Proof. intros [err H]. vm_compute in H. discriminate H. Qed.

End StaticRouterFacts.

(** ** ratelimit-global *)

Section RateLimitFacts.
Import RateLimit.

Lemma NewRateLimitGlobalHandler_inv raw h :
  NewRateLimitGlobalHandler raw = inr h ->
  0 < maxParallelConnections h
  /\ raw = RawDecodes {| MaxParallelConnections := maxParallelConnections h |}.
Proof.
  unfold NewRateLimitGlobalHandler.
  destruct raw as [|err|[n]]; simpl; try discriminate.
  - destruct (decide (n <= 0)); [discriminate|].
    intros [= <-]; simpl. split; [lia | reflexivity].
Qed.

(** C6.  A ratelimit-global handler exists only for a limit L > 0, and
    on every context its [OnConnect] returns Drop with a reason exactly
    when the session count of the context is at least L, and Continue
    with no error otherwise; it changes neither the context nor its own
    state. *)
Theorem RateLimit_OnConnect_gate (digits : Z -> string)
    (raw : RawMessage RateLimitGlobalConfig) (h : RateLimitGlobalHandler)
    (ctx : Context) :
  NewRateLimitGlobalHandler raw = inr h ->
  let L := maxParallelConnections h in
  let count := GetInt64 ctx "_session_count" in
  let '(r, ctx', h') := OnConnect digits h ctx in
  0 < L
  /\ (action r = Drop /\ is_Some (error r) <-> count >= L)
  /\ (~ count >= L -> r = mkResult Continue None)
  /\ ctx' = ctx /\ h' = h.
Proof.
  intros Hnew. apply NewRateLimitGlobalHandler_inv in Hnew as [Hpos _].
  unfold OnConnect.
  destruct (decide (GetInt64 ctx "_session_count" >= maxParallelConnections h))
    as [Hge|Hlt]; simpl.
  - repeat split; eauto; try contradiction.
  - repeat split; try tauto; try lia.
    intros [Hdrop _]; discriminate Hdrop.
Qed.

Lemma RateLimit_OnConnect_gate_witness :
  let h := {| maxParallelConnections := 10 |} in
  let ctx := Set_ emptyContext "_session_count" (VInt64 10) in
  let '(r, ctx', h') := OnConnect (fun _ => "") h ctx in
  0 < 10
  /\ (action r = Drop /\ is_Some (error r) <-> 10 >= 10)
  /\ (~ 10 >= 10 -> r = mkResult Continue None)
  /\ ctx' = ctx /\ h' = h.
Proof.
  apply (RateLimit_OnConnect_gate (fun _ => "")
           (RawDecodes {| MaxParallelConnections := 10 |})
           {| maxParallelConnections := 10 |}
           (Set_ emptyContext "_session_count" (VInt64 10))).
  reflexivity.
Defined.

(** Construction fails for every limit that is not positive, and for a
    missing config. *)
Lemma NewRateLimitGlobalHandler_rejects n :
  n <= 0 ->
  (exists err, NewRateLimitGlobalHandler
                 (RawDecodes {| MaxParallelConnections := n |}) = inl err)
  /\ (exists err, NewRateLimitGlobalHandler RawEmpty = inl err).
Proof.
  intros Hn. unfold NewRateLimitGlobalHandler; simpl.
  destruct (decide (n <= 0)); [|lia]. eauto.
Qed.

End RateLimitFacts.

(** ** sni-router *)

Section SniRouterFacts.
Import SniRouter.

Lemma wrap64_small z : 0 <= z < uint64_modulus -> wrap64 z = z.
Proof. intros H. unfold wrap64. apply Z.mod_small. exact H. Qed.

Lemma wrap64_range z : 0 <= wrap64 z < uint64_modulus.
Proof. unfold wrap64. apply Z.mod_pos_bound. reflexivity. Qed.

Lemma wrap64_succ c n : wrap64 (wrap64 (c + n) + 1) = wrap64 (c + (n + 1)).
Proof.
  unfold wrap64. rewrite Z.add_mod_idemp_l by discriminate.
  f_equal. lia.
Qed.

(** Within the range of the counter the index is the counter modulo the
    number of backends: the decrement undoes the increment, also when
    the increment wraps to zero. *)
Lemma pick_counter r :
  0 <= counter r < uint64_modulus ->
  pick r = counter r mod Z.of_nat (length (backends r)).
Proof.
  intros Hc. unfold pick. f_equal.
  unfold wrap64. rewrite Zminus_mod_idemp_l.
  replace (counter r + 1 - 1) with (counter r) by lia.
  apply Z.mod_small. exact Hc.
Qed.

Lemma pick_range r :
  backends r <> [] -> 0 <= pick r < Z.of_nat (length (backends r)).
Proof.
  intros Hne. unfold pick. apply Z.mod_pos_bound.
  destruct (backends r); [contradiction | simpl; lia].
Qed.

Lemma next_returns r :
  backends r <> [] ->
  exists b, backends r !! Z.to_nat (pick r) = Some b
            /\ next r = Returns (b, advance r).
Proof.
  intros Hne. pose proof (pick_range r Hne) as Hr.
  destruct (lookup_lt_is_Some_2 (backends r) (Z.to_nat (pick r))) as [b Hb];
    [lia|].
  exists b. split; [exact Hb|].
  unfold next. destruct (backends r) eqn:E; [contradiction|].
  rewrite Hb. reflexivity.
Qed.

Lemma advance_ok r : route_ok r -> route_ok (advance r).
Proof. intros [Hne _]. split; [exact Hne | apply wrap64_range]. Qed.

(** *** The factory *)

Lemma build_ok entries acc rs :
  build entries acc = inr rs ->
  map_Forall (fun _ r => route_ok r) acc ->
  map_Forall (fun _ r => route_ok r) rs.
Proof.
  revert acc. induction entries as [|[sni val] rest IH]; intros acc; simpl.
  - intros [= <-]. trivial.
  - destruct (backends_of sni val) as [err|[|b bs]]; try discriminate.
    intros Hb Hacc. apply (IH _ Hb).
    apply map_Forall_insert_2; [|exact Hacc].
    split; simpl; [discriminate | unfold uint64_modulus; lia].
Qed.

Lemma build_fresh entries acc rs sni r :
  build entries acc = inr rs ->
  (forall s r', acc !! s = Some r' -> counter r' = 0) ->
  rs !! sni = Some r -> counter r = 0.
Proof.
  revert acc. induction entries as [|[s val] rest IH]; intros acc; simpl.
  - intros [= <-] Hacc Hr. eauto.
  - destruct (backends_of s val) as [err|[|b bs]]; try discriminate.
    intros Hb Hacc. apply (IH _ Hb).
    intros s' r'. rewrite lookup_insert.
    case_decide; [intros [= <-]; reflexivity | apply Hacc].
Qed.

Lemma NewDynamicHandler_ok raw h :
  NewDynamicHandler raw = inr h ->
  map_Forall (fun _ r => route_ok r) (routes h)
  /\ (forall sni r, routes h !! sni = Some r -> counter r = 0).
Proof.
  unfold NewDynamicHandler.
  destruct (decode _ _ raw) as [err|cfg]; [discriminate|].
  destruct (Routes cfg) as [|e es] eqn:E; [discriminate|].
  destruct (build (e :: es) ∅) as [err|rs] eqn:Hb; [discriminate|].
  intros [= <-]; simpl. split.
  - apply (build_ok _ _ _ Hb). apply map_Forall_empty.
  - intros sni r. apply (build_fresh _ _ _ _ _ Hb).
    intros s r'. rewrite lookup_empty. discriminate.
Qed.

(** *** One call *)

Lemma OnConnect_no_hello h ctx :
  Hello ctx = None ->
  OnConnect h ctx = Returns (mkResult Drop (Some "no ClientHello"), ctx, h).
Proof. intros H. unfold OnConnect. rewrite H. reflexivity. Qed.

Lemma OnConnect_no_sni h ctx hello :
  Hello ctx = Some hello -> SNI hello = "" ->
  OnConnect h ctx = Returns (mkResult Drop (Some "no SNI"), ctx, h).
Proof.
  intros H E. unfold OnConnect. rewrite H. simpl.
  destruct (decide (SNI hello = "")); [reflexivity | contradiction].
Qed.

Lemma OnConnect_unknown h ctx hello :
  Hello ctx = Some hello -> SNI hello <> "" ->
  routes h !! SNI hello = None ->
  OnConnect h ctx
  = Returns (mkResult Drop (Some ("unknown SNI: " +:+ SNI hello)), ctx, h).
Proof.
  intros H E Hr. unfold OnConnect. rewrite H. simpl.
  destruct (decide (SNI hello = "")); [contradiction|].
  rewrite Hr. reflexivity.
Qed.

Lemma OnConnect_known h ctx hello r :
  Hello ctx = Some hello -> SNI hello <> "" ->
  routes h !! SNI hello = Some r -> backends r <> [] ->
  exists b,
    backends r !! Z.to_nat (pick r) = Some b
    /\ OnConnect h ctx
       = Returns (mkResult Continue None, Set_ ctx "backend" (VString b),
                  {| routes := <[SNI hello := advance r]> (routes h) |}).
Proof.
  intros H E Hr Hne. destruct (next_returns r Hne) as (b & Hb & Hnext).
  exists b. split; [exact Hb|].
  unfold OnConnect. rewrite H. simpl.
  destruct (decide (SNI hello = "")); [contradiction|].
  rewrite Hr, Hnext. reflexivity.
Qed.

(** *** A sequence of calls *)

Lemma moved_0 r : 0 <= counter r < uint64_modulus -> moved 0 r = r.
Proof.
  intros Hc. unfold moved. simpl. rewrite Z.add_0_r, wrap64_small by exact Hc.
  destruct r; reflexivity.
Qed.

Lemma moved_S n r : moved n (advance r) = moved (S n) r.
Proof.
  unfold moved, advance; simpl. f_equal.
  rewrite Nat2Z.inj_succ. unfold wrap64.
  rewrite Z.add_mod_idemp_l by discriminate. f_equal. lia.
Qed.

Lemma connects_routes ctxs : forall h0,
  map_Forall (fun _ r => route_ok r) (routes h0) ->
  exists h,
    connects h0 ctxs = Returns h
    /\ map_Forall (fun _ r => route_ok r) (routes h)
    /\ (forall sni, sni <> "" ->
          routes h !! sni = moved (hits sni ctxs) <$> routes h0 !! sni)
    /\ (forall sni, backends <$> routes h !! sni = backends <$> routes h0 !! sni).
Proof.
  induction ctxs as [|ctx rest IH]; intros h0 Hok.
  - exists h0. split_and!; try assumption; try reflexivity.
    intros sni _. simpl. destruct (routes h0 !! sni) as [r|] eqn:E; simpl; [|reflexivity].
    rewrite moved_0; [reflexivity | apply (Hok _ _ E)].
  - assert (Hkeep : forall h',
        connects h0 (ctx :: rest) = connects h' rest -> routes h' = routes h0 ->
        (forall sni, sni <> "" -> is_Some (routes h0 !! sni) -> carries sni ctx = false) ->
        exists h, connects h0 (ctx :: rest) = Returns h
          /\ map_Forall (fun _ r => route_ok r) (routes h)
          /\ (forall sni, sni <> "" ->
                routes h !! sni = moved (hits sni (ctx :: rest)) <$> routes h0 !! sni)
          /\ (forall sni, backends <$> routes h !! sni = backends <$> routes h0 !! sni)).
    { intros h' Hc Hr Hmiss. destruct (IH h') as (h & Hrun & Hok' & Hcnt & Hbs).
      { rewrite Hr. exact Hok. }
      exists h. rewrite Hc. split_and!; try assumption.
      - intros sni Hsni. rewrite (Hcnt sni Hsni), Hr. simpl.
        destruct (routes h0 !! sni) as [r|] eqn:E; [|reflexivity].
        rewrite (Hmiss sni Hsni) by eauto. reflexivity.
      - intros sni. rewrite Hbs, Hr. reflexivity. }
    destruct (Hello ctx) as [hello|] eqn:Hh.
    2:{ apply (Hkeep h0); [|reflexivity|].
        - simpl. rewrite (OnConnect_no_hello _ _ Hh). reflexivity.
        - intros sni _ _. unfold carries. rewrite Hh. reflexivity. }
    destruct (decide (SNI hello = "")) as [Hempty|Hsni].
    { apply (Hkeep h0); [|reflexivity|].
      - simpl. rewrite (OnConnect_no_sni _ _ _ Hh Hempty). reflexivity.
      - intros sni Hne _. unfold carries. rewrite Hh.
        apply bool_decide_eq_false. congruence. }
    destruct (routes h0 !! SNI hello) as [r|] eqn:Hr.
    2:{ apply (Hkeep h0); [|reflexivity|].
        - simpl. rewrite (OnConnect_unknown _ _ _ Hh Hsni Hr). reflexivity.
        - intros sni _ [r' Hr']. unfold carries. rewrite Hh.
          apply bool_decide_eq_false. intros Heq. congruence. }
    pose proof (Hok _ _ Hr) as Hrok.
    destruct (OnConnect_known _ _ _ _ Hh Hsni Hr (proj1 Hrok)) as (b & _ & Hstep).
    set (h1 := {| routes := <[SNI hello := advance r]> (routes h0) |}) in *.
    destruct (IH h1) as (h & Hrun & Hok' & Hcnt & Hbs).
    { apply map_Forall_insert_2; [apply advance_ok; exact Hrok | exact Hok]. }
    exists h. simpl. rewrite Hstep. split_and!; try assumption.
    + intros sni Hne. rewrite (Hcnt sni Hne). unfold h1; simpl.
      rewrite lookup_insert. unfold carries. rewrite Hh.
      case_decide as Heq.
      * subst sni. rewrite Hr, bool_decide_eq_true_2 by reflexivity. simpl.
        rewrite moved_S. reflexivity.
      * rewrite bool_decide_eq_false_2 by exact Heq. reflexivity.
    + intros sni. rewrite Hbs. unfold h1; simpl.
      rewrite lookup_insert. case_decide as Heq; [|reflexivity].
      subst sni. rewrite Hr. reflexivity.
Qed.

End SniRouterFacts.

Section SniRouterClaims.
Import SniRouter.

(** C5.  On a handler the factory built, in whatever state earlier calls
    left it, [OnConnect] returns on every context: Drop when the context
    has no ClientHello or an empty SNI, Drop with the reason
    [unknown SNI: <sni>] when the SNI is not a key of the configured
    routes, and otherwise Continue with the key [backend] of the context
    set to a member of the backend list of that route.  A Drop leaves
    the context and the handler as they were, and no result attaches a
    session to the context. *)
Theorem SniRouter_OnConnect_cases (raw : RawMessage DynamicConfig)
    (h0 : DynamicHandler) (ctxs : list Context) :
  NewDynamicHandler raw = inr h0 ->
  exists h,
    connects h0 ctxs = Returns h
    /\ forall ctx,
        match Hello ctx with
        | None =>
            OnConnect h ctx
            = Returns (mkResult Drop (Some "no ClientHello"), ctx, h)
        | Some hello =>
            if decide (SNI hello = "") then
              OnConnect h ctx = Returns (mkResult Drop (Some "no SNI"), ctx, h)
            else
              match routes h0 !! SNI hello with
              | None =>
                  OnConnect h ctx
                  = Returns (mkResult Drop (Some ("unknown SNI: " +:+ SNI hello)),
                             ctx, h)
              | Some r0 =>
                  exists b h',
                    b ∈ backends r0
                    /\ OnConnect h ctx
                       = Returns (mkResult Continue None,
                                  Set_ ctx "backend" (VString b), h')
                    /\ GetString (Set_ ctx "backend" (VString b)) "backend" = b
                    /\ CtxSession (Set_ ctx "backend" (VString b)) = CtxSession ctx
              end
        end.
Proof.
  intros Hnew. destruct (NewDynamicHandler_ok _ _ Hnew) as [Hok _].
  destruct (connects_routes ctxs h0 Hok) as (h & Hrun & Hok' & _ & Hbs).
  exists h. split; [exact Hrun|]. intros ctx.
  destruct (Hello ctx) as [hello|] eqn:Hh; [|apply OnConnect_no_hello, Hh].
  destruct (decide (SNI hello = "")) as [Hempty|Hsni];
    [apply (OnConnect_no_sni _ _ _ Hh Hempty)|].
  specialize (Hbs (SNI hello)).
  destruct (routes h0 !! SNI hello) as [r0|] eqn:Hr0;
    destruct (routes h !! SNI hello) as [r|] eqn:Hr; try discriminate Hbs.
  - injection Hbs as Hbs.
    destruct (OnConnect_known _ _ _ _ Hh Hsni Hr (proj1 (Hok' _ _ Hr)))
      as (b & Hb & Hstep).
    exists b, {| routes := <[SNI hello := advance r]> (routes h) |}.
    split_and!; [| exact Hstep | | reflexivity].
    + rewrite <- Hbs. apply list_elem_of_lookup. eauto.
    + unfold GetString, Set_; simpl. rewrite lookup_insert_eq. reflexivity.
  - apply (OnConnect_unknown _ _ _ Hh Hsni Hr).
Qed.

Lemma SniRouter_OnConnect_cases_witness :
  let h0 := {| routes := {[ "example.com" := mkRoute ["backend:443"] 0 ]} |} in
  exists h,
    connects h0 [] = Returns h
    /\ forall ctx,
        match Hello ctx with
        | None =>
            OnConnect h ctx
            = Returns (mkResult Drop (Some "no ClientHello"), ctx, h)
        | Some hello =>
            if decide (SNI hello = "") then
              OnConnect h ctx = Returns (mkResult Drop (Some "no SNI"), ctx, h)
            else
              match routes h0 !! SNI hello with
              | None =>
                  OnConnect h ctx
                  = Returns (mkResult Drop (Some ("unknown SNI: " +:+ SNI hello)),
                             ctx, h)
              | Some r0 =>
                  exists b h',
                    b ∈ backends r0
                    /\ OnConnect h ctx
                       = Returns (mkResult Continue None,
                                  Set_ ctx "backend" (VString b), h')
                    /\ GetString (Set_ ctx "backend" (VString b)) "backend" = b
                    /\ CtxSession (Set_ ctx "backend" (VString b)) = CtxSession ctx
              end
        end.
Proof.
  exact (SniRouter_OnConnect_cases
           (RawDecodes {| Routes := [("example.com", JString "backend:443")] |})
           {| routes := {[ "example.com" := mkRoute ["backend:443"] 0 ]} |} []
           eq_refl).
Defined.

(** *** Round robin *)

Lemma picks_snoc K : forall r,
  route_ok r -> picks (S K) r = (picks K r ++ [pick (moved K r)])%list.
Proof.
  induction K as [|K IH]; intros r Hr.
  - simpl. rewrite moved_0 by apply Hr. reflexivity.
  - change (picks (S (S K)) r) with (pick r :: picks (S K) (advance r)).
    rewrite (IH (advance r)) by (apply advance_ok; exact Hr).
    rewrite moved_S. reflexivity.
Qed.

Lemma picked_snoc i l x :
  picked i (l ++ [x])%list = picked i l + (if decide (x = i) then 1 else 0).
Proof.
  unfold picked. rewrite filter_app, length_app, Nat2Z.inj_add. f_equal.
  rewrite filter_cons. case_decide; reflexivity.
Qed.

(** Counting the residues of 0, 1, ..., K modulo N: one more step. *)
Lemma residues_step K N i :
  0 <= K -> 0 <= i < N ->
  (K + 1) / N + (if decide (i < (K + 1) mod N) then 1 else 0)
  = K / N + (if decide (i < K mod N) then 1 else 0)
    + (if decide (K mod N = i) then 1 else 0).
Proof.
  intros HK Hi. assert (HN : 0 < N) by lia.
  pose proof (Z.div_mod K N ltac:(lia)) as Hdm.
  pose proof (Z.mod_pos_bound K N HN) as Hm.
  destruct (decide (K mod N = N - 1)) as [Hlast|Hmid].
  - assert (Hq : (K + 1) / N = K / N + 1)
      by (symmetry; apply (Z.div_unique (K + 1) N (K / N + 1) 0); lia).
    assert (Hr : (K + 1) mod N = 0)
      by (symmetry; apply (Z.mod_unique (K + 1) N (K / N + 1) 0); lia).
    rewrite Hq, Hr. repeat case_decide; lia.
  - assert (Hq : (K + 1) / N = K / N)
      by (symmetry; apply (Z.div_unique (K + 1) N (K / N) (K mod N + 1)); lia).
    assert (Hr : (K + 1) mod N = K mod N + 1)
      by (symmetry; apply (Z.mod_unique (K + 1) N (K / N) (K mod N + 1)); lia).
    rewrite Hq, Hr. repeat case_decide; lia.
Qed.

Lemma picked_picks (r : route) (i : Z) (K : nat) :
  backends r <> [] -> counter r = 0 ->
  0 <= i < Z.of_nat (length (backends r)) ->
  Z.of_nat K <= uint64_modulus ->
  picked i (picks K r)
  = Z.of_nat K / Z.of_nat (length (backends r))
    + (if decide (i < Z.of_nat K mod Z.of_nat (length (backends r))) then 1 else 0).
Proof.
  intros Hne Hc Hi. induction K as [|K IH]; intros HK.
  - simpl. rewrite Z.div_0_l, Z.mod_0_l by lia.
    case_decide; [lia | reflexivity].
  - assert (Hr : route_ok r)
      by (split; [exact Hne | rewrite Hc; unfold uint64_modulus; lia]).
    rewrite (picks_snoc K r Hr), picked_snoc, IH by lia.
    rewrite pick_counter by (simpl; apply wrap64_range).
    unfold moved at 1 2; simpl. rewrite Hc, Z.add_0_l, wrap64_small by lia.
    rewrite Nat2Z.inj_succ, <- Z.add_1_r.
    symmetry. apply residues_step; lia.
Qed.

Lemma hits_replicate sni ctx n :
  carries sni ctx = true -> hits sni (replicate n ctx) = n.
Proof.
  intros H. induction n as [|n IH]; simpl; [reflexivity|].
  rewrite H, IH. reflexivity.
Qed.

(** C4, as amended.  For a route of the sni-router with a non-empty SNI
    and backends b_0..b_{N-1}, and any sequence of [OnConnect] calls: the
    counter of the route moves once per call that carries its SNI and
    not at all on the other calls, and while no more than 2^64 calls have
    carried the SNI, the k-th of them sets the key [backend] to
    b_{(k-1) mod N}; so over K <= 2^64 calls carrying the SNI every
    position of the list is picked K/N or K/N + 1 times. *)
Theorem SniRouter_round_robin (raw : RawMessage DynamicConfig)
    (h0 : DynamicHandler) (sni : string) (r0 : route)
    (ctxs : list Context) (ctx : Context) (hello : ClientHello) :
  NewDynamicHandler raw = inr h0 ->
  routes h0 !! sni = Some r0 -> sni <> "" ->
  Hello ctx = Some hello -> SNI hello = sni ->
  let N := Z.of_nat (length (backends r0)) in
  let K := Z.of_nat (hits sni ctxs) in
  K + 1 <= uint64_modulus ->
  (exists h1 h2 b,
      connects h0 ctxs = Returns h1
      /\ routes h1 !! sni = Some (mkRoute (backends r0) K)
      /\ OnConnect h1 ctx
         = Returns (mkResult Continue None, Set_ ctx "backend" (VString b), h2)
      /\ backends r0 !! Z.to_nat (K mod N) = Some b)
  /\ (forall i, 0 <= i < N ->
        K / N <= picked i (picks (hits sni ctxs) r0) <= K / N + 1).
Proof.
  intros Hnew Hr0 Hsni Hh Hs N K HK.
  destruct (NewDynamicHandler_ok _ _ Hnew) as [Hok Hfresh].
  pose proof (Hfresh _ _ Hr0) as Hc. destruct (Hok _ _ Hr0) as [Hne _].
  split.
  - destruct (connects_routes ctxs h0 Hok) as (h1 & Hrun & Hok1 & Hcnt & _).
    pose proof (Hcnt sni Hsni) as Hr1. rewrite Hr0 in Hr1. simpl in Hr1.
    assert (Hm : moved (hits sni ctxs) r0 = mkRoute (backends r0) K).
    { unfold moved. rewrite Hc, Z.add_0_l. f_equal.
      apply wrap64_small. pose proof (Nat2Z.is_nonneg (hits sni ctxs)). lia. }
    rewrite Hm in Hr1. subst sni.
    destruct (OnConnect_known _ _ _ _ Hh Hsni Hr1 Hne) as (b & Hb & Hstep).
    exists h1, {| routes := <[SNI hello := advance (mkRoute (backends r0) K)]> (routes h1) |}, b.
    split_and!; try assumption.
    rewrite pick_counter in Hb; [exact Hb|].
    simpl. pose proof (Nat2Z.is_nonneg (hits (SNI hello) ctxs)). lia.
  - intros i Hi. rewrite (picked_picks r0 i _ Hne Hc Hi) by lia.
    fold K N. case_decide; lia.
Qed.

Lemma SniRouter_round_robin_witness :
  let r0 := mkRoute ["b1:443"; "b2:443"] 0 in
  let h0 := {| routes := {[ "a.com" := r0 ]} |} in
  let ctx := helloContext "a.com" in
  let ctxs := [helloContext "a.com"; helloContext "b.com"; helloContext "a.com"] in
  (exists h1 h2 b,
      connects h0 ctxs = Returns h1
      /\ routes h1 !! "a.com" = Some (mkRoute (backends r0) 2)
      /\ OnConnect h1 ctx
         = Returns (mkResult Continue None, Set_ ctx "backend" (VString b), h2)
      /\ backends r0 !! Z.to_nat (2 mod 2) = Some b)
  /\ (forall i, 0 <= i < 2 ->
        2 / 2 <= picked i (picks (hits "a.com" ctxs) r0) <= 2 / 2 + 1).
Proof.
  apply (SniRouter_round_robin
           (RawDecodes {| Routes := [("a.com", JArray [Some "b1:443"; Some "b2:443"])] |})
           {| routes := {[ "a.com" := mkRoute ["b1:443"; "b2:443"] 0 ]} |}
           "a.com" (mkRoute ["b1:443"; "b2:443"] 0)
           [helloContext "a.com"; helloContext "b.com"; helloContext "a.com"]
           (helloContext "a.com") {| SNI := "a.com"; ALPN := [] |});
    try reflexivity; try discriminate.
Defined.

(** C4, as stated, fails in two places.  After 2^64 calls the counter of
    a route has wrapped: on a route with three backends the call number
    2^64 + 1 picks b_0, where (k-1) mod N = 1 asks for b_1.  And a route
    configured under the empty SNI is never served: a call carrying the
    empty SNI is dropped. *)
Lemma SniRouter_round_robin_fails :
  let r0 := mkRoute ["b0"; "b1"; "b2"] 0 in
  let h0 := {| routes := {[ "a.com" := r0 ]} |} in
  let ctx := helloContext "a.com" in
  let k := 2 ^ 64 + 1 in
  (NewDynamicHandler
     (RawDecodes {| Routes := [("a.com", JArray [Some "b0"; Some "b1"; Some "b2"])] |})
   = inr h0
   /\ (exists h1 h2,
         connects h0 (replicate (Z.to_nat (k - 1)) ctx) = Returns h1
         /\ OnConnect h1 ctx
            = Returns (mkResult Continue None,
                       Set_ ctx "backend" (VString "b0"), h2))
   /\ backends r0 !! Z.to_nat ((k - 1) mod 3) = Some "b1")
  /\ (let e0 := {| routes := {[ "" := mkRoute ["b0"] 0 ]} |} in
      NewDynamicHandler (RawDecodes {| Routes := [("", JString "b0")] |}) = inr e0
      /\ carries "" (helloContext "") = true
      /\ OnConnect e0 (helloContext "")
         = Returns (mkResult Drop (Some "no SNI"), helloContext "", e0)).
Proof.
  intros r0 h0 ctx k. split; [|repeat split; reflexivity].
  assert (Hnew : NewDynamicHandler
     (RawDecodes {| Routes := [("a.com", JArray [Some "b0"; Some "b1"; Some "b2"])] |})
     = inr h0) by reflexivity.
  split_and!; [exact Hnew | | reflexivity].
  remember (Z.to_nat (k - 1)) as n eqn:Hn.
  assert (HnZ : Z.of_nat n = 2 ^ 64) by (subst n k; apply Z2Nat.id; lia).
  destruct (NewDynamicHandler_ok _ _ Hnew) as [Hok _].
  destruct (connects_routes (replicate n ctx) h0 Hok) as (h1 & Hrun & _ & Hcnt & _).
  specialize (Hcnt "a.com" ltac:(discriminate)).
  rewrite hits_replicate in Hcnt by reflexivity.
  assert (Hr0 : routes h0 !! "a.com" = Some r0) by reflexivity.
  rewrite Hr0 in Hcnt. simpl in Hcnt.
  assert (Hm : moved n r0 = r0).
  { unfold moved. rewrite HnZ. reflexivity. }
  rewrite Hm in Hcnt.
  destruct (OnConnect_known h1 ctx {| SNI := "a.com"; ALPN := [] |} r0
              eq_refl ltac:(discriminate) Hcnt ltac:(discriminate))
    as (b & Hb & Hstep).
  assert (b = "b0") by (vm_compute in Hb; congruence). subst b.
  eauto.
Qed.

End SniRouterClaims.

(** ** forwarder: one call at a time *)

Section ForwarderFacts.
Import Forwarder.

Lemma run_bind {A B : Type} (m : Prog A) (f : A -> Prog B) (w : World) :
  run (bind m f) w
  = match run m w with
    | (Returns a, w') => run (f a) w'
    | (Panics msg, w') => (Panics msg, w')
    end.
Proof.
  revert w. induction m as [a|msg|X op k IH]; intros w; simpl; try reflexivity.
  destruct (perform op w) as [x w']. apply IH.
Qed.

Lemma lookup_touch (p : SessionPtr) (now : Z) (l : list Session) (s : Session) :
  l !! p = Some s ->
  alter (setLastActivity now) p l !! p = Some (setLastActivity now s).
Proof. intros H. rewrite list_lookup_alter_eq, H. reflexivity. Qed.

(** C9.  On a context with no session attached, [OnPacket] returns Drop
    with the error [no session] for every packet and direction, and
    issues no call at all: the world is as it was. *)
Theorem OnPacket_no_session (env : PacketEnv) (h : ForwarderHandler)
    (ctx : Context) (packet : list byte) (dir : Direction) (w : World) :
  CtxSession ctx = None ->
  run (OnPacket env h ctx packet dir) w
  = (Returns (mkResult Drop (Some "no session")), w).
Proof. intros H. unfold OnPacket. rewrite H. reflexivity. Qed.

Lemma OnPacket_no_session_witness :
  run (OnPacket {| packetNow := 7; backendWriteErr := None |}
         {| sessionCounter := 0 |} emptyContext [x01; x02; x03]%byte Inbound)
      (mkWorld [] [])
  = (Returns (mkResult Drop (Some "no session")), mkWorld [] []).
Proof.
  apply (OnPacket_no_session {| packetNow := 7; backendWriteErr := None |}
           {| sessionCounter := 0 |} emptyContext [x01; x02; x03]%byte Inbound
           (mkWorld [] [])).
  reflexivity.
Defined.

(** The first half of C8: on a session whose closed flag is set,
    [OnPacket] returns Drop with no error and leaves the world as it
    was: nothing is written, [LastActivity] is not touched. *)
Lemma OnPacket_closed (env : PacketEnv) (h : ForwarderHandler) (ctx : Context)
    (packet : list byte) (dir : Direction) (w : World)
    (p : SessionPtr) (s : Session) :
  CtxSession ctx = Some p -> sessions w !! p = Some s -> closed s = true ->
  run (OnPacket env h ctx packet dir) w = (Returns (mkResult Drop None), w).
Proof.
  intros Hp Hs Hc. unfold OnPacket. rewrite Hp. simpl.
  rewrite Hs. simpl. rewrite Hc. reflexivity.
Qed.

(** The second half of C8, for a datagram of at least one byte: on an
    open session an inbound packet touches [LastActivity] and is written
    to the backend socket; the result is Handled, or Drop with the error
    of the write. *)
Lemma OnPacket_inbound_open (env : PacketEnv) (h : ForwarderHandler)
    (ctx : Context) (packet : list byte) (w : World)
    (p : SessionPtr) (s : Session) :
  CtxSession ctx = Some p -> sessions w !! p = Some s -> closed s = false ->
  packet <> [] ->
  run (OnPacket env h ctx packet Inbound) w
  = (Returns match backendWriteErr env with
             | Some err => mkResult Drop (Some err)
             | None => mkResult Handled None
             end,
     mkWorld (alter (setLastActivity (packetNow env)) p (sessions w))
             (trace w ++ [EBackendWrite (BackendConn s) packet])).
Proof.
  intros Hp Hs Hc Hne. unfold OnPacket. rewrite Hp. simpl.
  rewrite Hs. simpl. rewrite Hc. simpl.
  destruct packet as [|b rest]; [contradiction|]. simpl.
  rewrite (lookup_touch _ _ _ _ Hs). simpl.
  destruct (backendWriteErr env); reflexivity.
Qed.

(** C8 fails on a datagram of no bytes.  On an open session, an inbound
    packet of length zero makes [OnPacket] panic on [packet[0]], after
    [LastActivity] was touched and before anything is written to the
    backend socket; no Result is returned. *)
Theorem OnPacket_inbound_empty_panics (env : PacketEnv) (h : ForwarderHandler)
    (ctx : Context) (w : World) (p : SessionPtr) (s : Session) :
  CtxSession ctx = Some p -> sessions w !! p = Some s -> closed s = false ->
  run (OnPacket env h ctx [] Inbound) w
  = (Panics "index out of range [0] with length 0",
     mkWorld (alter (setLastActivity (packetNow env)) p (sessions w)) (trace w)).
Proof.
  intros Hp Hs Hc. unfold OnPacket. rewrite Hp. simpl.
  rewrite Hs. simpl. rewrite Hc. reflexivity.
Qed.

Lemma OnPacket_inbound_empty_panics_witness :
  run (OnPacket {| packetNow := 9; backendWriteErr := None |}
         {| sessionCounter := 1 |} (attach emptyContext 0) [] Inbound)
      (mkWorld [openSession] [EDial 5 backendAddress; EGo 0])
  = (Panics "index out of range [0] with length 0",
     mkWorld [setLastActivity 9 openSession] [EDial 5 backendAddress; EGo 0]).
Proof.
  apply (OnPacket_inbound_empty_panics
           {| packetNow := 9; backendWriteErr := None |}
           {| sessionCounter := 1 |} (attach emptyContext 0)
           (mkWorld [openSession] [EDial 5 backendAddress; EGo 0]) 0 openSession);
    reflexivity.
Defined.

(** C10.  With a backend in the context that resolves and can be dialed,
    and an empty [InitialPacket], [OnConnect] returns Handled; it has
    allocated a session that is open, holds the dialed socket and is
    attached to the context; the only calls it issued are the dial and
    the start of the pump: nothing was written to the backend socket. *)
Theorem OnConnect_empty_initial_packet (net : ConnectEnv)
    (h : ForwarderHandler) (ctx : Context) (w : World)
    (backendAddr : UDPAddr) (backendConn : Conn) :
  GetString ctx "backend" <> "" ->
  ResolveUDPAddr net (GetString ctx "backend") = inr backendAddr ->
  DialUDP net backendAddr = inr backendConn ->
  InitialPacket ctx = [] ->
  let p := length (sessions w) in
  let id := wrap64 (sessionCounter h + 1) in
  let session :=
    {| ID := id; BackendAddr := backendAddr; BackendConn := backendConn;
       CreatedAt := connectNow net; clientAddr := ClientAddr ctx;
       LastActivity := connectNow net; closed := false |} in
  run (OnConnect net h ctx) w
  = (Returns (mkResult Handled None,
              clearInitialPacket (attach ctx p), {| sessionCounter := id |}),
     mkWorld (sessions w ++ [session])
             (trace w ++ [EDial backendConn backendAddr; EGo p]))
  /\ CtxSession (clearInitialPacket (attach ctx p)) = Some p
  /\ (sessions w ++ [session])%list !! p = Some session.
Proof.
  intros Hb Hres Hdial Hinit p id session. split_and!.
  - unfold OnConnect.
    destruct (decide (GetString ctx "backend" = "")); [contradiction|].
    rewrite Hres, Hdial. simpl. rewrite Hinit. simpl.
    rewrite <- app_assoc. reflexivity.
  - reflexivity.
  - apply list_lookup_middle. reflexivity.
Qed.

Lemma OnConnect_empty_initial_packet_witness :
  let ctx := Set_ emptyContext "backend" (VString "127.0.0.1:9") in
  let session :=
    {| ID := wrap64 (0 + 1); BackendAddr := backendAddress; BackendConn := 5%nat;
       CreatedAt := 100; clientAddr := None; LastActivity := 100;
       closed := false |} in
  run (OnConnect reachable {| sessionCounter := 0 |} ctx) (mkWorld [] [])
  = (Returns (mkResult Handled None,
              clearInitialPacket (attach ctx 0), {| sessionCounter := wrap64 (0 + 1) |}),
     mkWorld ([] ++ [session]) ([] ++ [EDial 5 backendAddress; EGo 0]))
  /\ CtxSession (clearInitialPacket (attach ctx 0)) = Some 0%nat
  /\ ([] ++ [session])%list !! 0%nat = Some session.
Proof.
  apply (OnConnect_empty_initial_packet reachable {| sessionCounter := 0 |}
           (Set_ emptyContext "backend" (VString "127.0.0.1:9")) (mkWorld [] [])
           backendAddress 5%nat);
    try reflexivity; discriminate.
Defined.

End ForwarderFacts.

(** ** forwarder: the pump *)

Section PumpFacts.
Import Forwarder.

Lemma notified_weaken (o : option Event) (tr : list Event) :
  notified None tr -> notified o tr.
Proof.
  destruct tr as [|e rest]; simpl; [trivial|].
  intros [He Hrest]. split; [|exact Hrest].
  destruct e; trivial; discriminate He.
Qed.

Lemma notified_app (t1 t2 : list Event) : forall o,
  notified o t1 -> notified None t2 -> notified o (t1 ++ t2).
Proof.
  induction t1 as [|e rest IH]; intros o H1 H2; simpl.
  - apply notified_weaken, H2.
  - destruct H1 as [He Hrest]. split; [exact He | apply IH; assumption].
Qed.

Lemma notified_before (pre : list Event) : forall o tr pc p to post,
  notified o tr -> tr = (pre ++ EClientWrite pc p to :: post)%list ->
  last (o :: map Some pre) = Some (Some (ENotifyServerPacket p)).
Proof.
  induction pre as [|e pre IH]; intros o tr pc p to post Hn ->; simpl in *.
  - destruct Hn as [He _]. rewrite He. reflexivity.
  - destruct Hn as [_ Hrest].
    apply (IH (Some e) _ pc p to post Hrest eq_refl).
Qed.

Lemma last_map_Some (pre : list Event) (e : Event) :
  last (None :: map Some pre) = Some (Some e) ->
  exists pre', pre = (pre' ++ [e])%list.
Proof.
  destruct pre as [|x pre _] using rev_ind; simpl.
  - discriminate.
  - rewrite map_app. simpl.
    change (None :: map Some pre ++ [Some x])%list
      with ((None :: map Some pre) ++ [Some x])%list.
    rewrite last_snoc. intros [= ->]. eauto.
Qed.

(** What one round of the pump adds to the calls issued. *)
Lemma pumpRound_trace (env : PumpEnv) (ctx : Context) (session : SessionPtr)
    (w : World) :
  exists tr,
    trace (snd (run (pumpRound env ctx session) w)) = (trace w ++ tr)%list
    /\ notified None tr.
Proof.
  unfold pumpRound. simpl.
  destruct (sessions w !! session) as [s|] eqn:Hs; simpl.
  2:{ exists []. rewrite app_nil_r. split; [reflexivity | exact I]. }
  destruct (closed s) eqn:Hc; simpl.
  { exists []. rewrite app_nil_r. split; [reflexivity | exact I]. }
  rewrite Hs; simpl.
  destruct (readResult env) as [err|datagram]; simpl.
  { eexists. rewrite <- !app_assoc. split; [reflexivity | simpl; tauto]. }
  rewrite Hs; simpl. rewrite Hc; simpl.
  destruct (ProxyConn ctx) as [proxyConn|]; simpl.
  2:{ eexists. rewrite <- !app_assoc. split; [reflexivity | simpl; tauto]. }
  rewrite (lookup_touch _ _ _ _ Hs); simpl.
  destruct (clientWriteErr env); simpl;
    (eexists; rewrite <- !app_assoc; split; [reflexivity | simpl; tauto]).
Qed.

Lemma backendToClient_trace (script : list PumpEnv) (ctx : Context)
    (session : SessionPtr) : forall w,
  exists tr,
    trace (snd (run (backendToClient script ctx session) w)) = (trace w ++ tr)%list
    /\ notified None tr.
Proof.
  induction script as [|env rest IH]; intros w.
  - exists []. simpl. rewrite app_nil_r. split; [reflexivity | exact I].
  - cbn [backendToClient]. rewrite run_bind.
    destruct (pumpRound_trace env ctx session w) as (t1 & Ht1 & Hn1).
    destruct (run (pumpRound env ctx session) w) as [[again|msg] w1];
      simpl in Ht1.
    + destruct again; simpl.
      * destruct (IH w1) as (t2 & Ht2 & Hn2).
        exists (t1 ++ t2)%list. rewrite Ht2, Ht1, app_assoc.
        split; [reflexivity | apply notified_app; assumption].
      * exists t1. split; assumption.
    + exists t1. split; assumption.
Qed.

(** C7.  In every run of the backend-to-client pump, whatever the
    backend socket and the listen socket answer, each write of a
    datagram to the client comes directly after the notification of the
    proxy about that same datagram: among the calls of the pump nothing
    stands between the two. *)
Theorem pump_notifies_before_write (script : list PumpEnv) (ctx : Context)
    (session : SessionPtr) (w : World) :
  exists tr,
    trace (snd (run (backendToClient script ctx session) w)) = (trace w ++ tr)%list
    /\ forall pre proxyConn datagram to post,
        tr = (pre ++ EClientWrite proxyConn datagram to :: post)%list ->
        exists pre', pre = (pre' ++ [ENotifyServerPacket datagram])%list.
Proof.
  destruct (backendToClient_trace script ctx session w) as (tr & Htr & Hn).
  exists tr. split; [exact Htr|].
  intros pre pc p to post E. apply last_map_Some.
  apply (notified_before pre None tr pc p to post Hn E).
Qed.

(** A round that forwards: the calls of the pump on a datagram read from
    the backend of an open session, with the proxy's socket at hand. *)
Example pumpRound_forwards :
  run (pumpRound {| readResult := inr [x40; x01]%byte; pumpNow := 101;
                    clientWriteErr := None |}
         {| ClientAddr := None; InitialPacket := []; Hello := None;
            values := ∅; ProxyConn := Some 3%nat; CtxSession := Some 0%nat |} 0)
      (mkWorld [openSession] [])
  = (Returns true,
     mkWorld [setLastActivity 101 openSession]
       [EGetBuffer; ESetReadDeadline 5; EBackendRead 5;
        ENotifyServerPacket [x40; x01]%byte;
        EClientWrite 3 [x40; x01]%byte None; EPutBuffer]).
Proof. reflexivity. Qed.

End PumpFacts.

(** ** forwarder: the close of a session *)

Section CloseFacts.
Import Forwarder.

Variables (p : SessionPtr) (c : Conn).

Lemma closes_app (t1 t2 : list Event) :
  closes c (t1 ++ t2) = (closes c t1 + closes c t2)%nat.
Proof.
  induction t1 as [|e rest IH]; simpl; [reflexivity|].
  destruct e; try exact IH. case_decide; simpl; rewrite IH; reflexivity.
Qed.

Lemma touch_lookup (q : SessionPtr) (now : Z) (l : list Session) :
  alter (setLastActivity now) q l !! p
  = (if decide (q = p) then setLastActivity now <$> l !! p else l !! p).
Proof. rewrite list_lookup_alter. case_decide; subst; reflexivity. Qed.

Lemma owns_touch (q : SessionPtr) (now : Z) (w : World) :
  owns p c w ->
  owns p c (mkWorld (alter (setLastActivity now) q (sessions w)) (trace w)).
Proof.
  intros (s & Hs & Hc). unfold owns; simpl. rewrite touch_lookup, Hs.
  case_decide; simpl; eauto.
Qed.

Lemma flag_touch (q : SessionPtr) (now : Z) (w : World) :
  flag p (mkWorld (alter (setLastActivity now) q (sessions w)) (trace w))
  = flag p w.
Proof.
  unfold flag; simpl. rewrite touch_lookup.
  case_decide; [|reflexivity]. destruct (sessions w !! p); reflexivity.
Qed.

(** A step that leaves the flag and the closes alone keeps a quiet task
    quiet. *)
Lemma moves_quiet (w w' : World) :
  owns p c w' -> flag p w' = flag p w ->
  closes c (trace w') = closes c (trace w) ->
  moves p c Quiet Quiet w w'.
Proof.
  intros Ho Hf Hc. unfold moves. rewrite Hf, Hc.
  split_and!; try tauto; try discriminate.
Qed.

Lemma follows_quiet_bind {A B : Type} (m : Prog A) (f : A -> Prog B) :
  follows p c Quiet m -> (forall a, follows p c Quiet (f a)) ->
  follows p c Quiet (bind m f).
Proof.
  intros Hm Hf. induction m as [a|msg|X op k IH]; simpl.
  - apply Hf.
  - left; reflexivity.
  - intros w Ho Hfl. destruct (Hm w Ho Hfl) as (a' & Hmv & Hk).
    assert (a' = Quiet) by (apply Hmv; reflexivity). subst a'.
    exists Quiet. split; [exact Hmv | apply IH, Hk].
Qed.

Lemma quiet_ret {A : Type} (a : A) : follows p c Quiet (Ret a).
Proof. left; reflexivity. Qed.

Lemma quiet_emit (e : Event) :
  closes c [e] = 0%nat -> follows p c Quiet (emit e).
Proof.
  intros He w Ho _. exists Quiet. split; [|apply quiet_ret].
  apply moves_quiet; simpl; [exact Ho | reflexivity|].
  rewrite closes_app, He. lia.
Qed.

Lemma quiet_deref (q : SessionPtr) : follows p c Quiet (deref q).
Proof.
  intros w Ho _. exists Quiet. split.
  - apply moves_quiet; simpl; [exact Ho | reflexivity | reflexivity].
  - simpl. destruct (sessions w !! q); left; reflexivity.
Qed.

Lemma quiet_IsClosed (q : SessionPtr) : follows p c Quiet (IsClosed q).
Proof.
  apply follows_quiet_bind; [apply quiet_deref | intros s; apply quiet_ret].
Qed.

Lemma quiet_Touch (now : Z) (q : SessionPtr) : follows p c Quiet (Touch now q).
Proof.
  intros w Ho _. exists Quiet. split; [|apply quiet_ret].
  apply moves_quiet; simpl;
    [apply owns_touch, Ho | apply flag_touch | reflexivity].
Qed.

Ltac quiet :=
  repeat first
    [ apply quiet_ret
    | apply quiet_IsClosed
    | apply quiet_deref
    | apply quiet_Touch
    | apply quiet_emit; reflexivity
    | apply follows_quiet_bind; [|intros ?]
    | left; reflexivity ].

Lemma quiet_OnPacket env h ctx packet dir :
  follows p c Quiet (OnPacket env h ctx packet dir).
Proof.
  unfold OnPacket. destruct (CtxSession ctx) as [q|]; quiet.
  destruct a; quiet. destruct dir; quiet.
  destruct packet; cbv beta iota; quiet.
  destruct (backendWriteErr env); quiet.
Qed.

Lemma quiet_pumpRound env ctx session :
  follows p c Quiet (pumpRound env ctx session).
Proof.
  unfold pumpRound. quiet. destruct a; quiet.
  destruct (readResult env); quiet. destruct a3; quiet.
  destruct (ProxyConn ctx); quiet. destruct (clientWriteErr env); quiet.
Qed.

Lemma quiet_backendToClient script ctx session :
  follows p c Quiet (backendToClient script ctx session).
Proof.
  induction script as [|env rest IH]; cbn [backendToClient];
    [apply quiet_ret|].
  apply follows_quiet_bind; [apply quiet_pumpRound|].
  intros [|]; [exact IH | apply quiet_ret].
Qed.

(** An OnDisconnect on a context of the session: the compare-and-swap
    decides whether it is the one that closes. *)
Lemma fresh_OnDisconnect h ctx :
  CtxSession ctx = Some p -> follows p c Fresh (OnDisconnect h ctx).
Proof.
  intros Hp. unfold OnDisconnect. rewrite Hp. simpl.
  intros w (s & Hs & Hc) _. rewrite Hs.
  destruct (closed s) eqn:Hcl; simpl.
  - exists Finished. split; [|right; reflexivity].
    unfold moves, owns, flag. rewrite Hs, Hcl.
    split_and!; eauto; try discriminate.
  - exists Winner. split.
    + unfold moves, owns, flag; simpl.
      rewrite list_lookup_insert_eq by (apply lookup_lt_Some in Hs; exact Hs).
      rewrite Hs, Hcl. simpl. split_and!; eauto; try discriminate; lia.
    + intros w1 (s1 & Hs1 & Hc1) Hf1. specialize (Hf1 eq_refl).
      exists Winner. simpl. rewrite Hs1. simpl. split.
      * unfold moves. split_and!; eauto; try discriminate. exists s1; eauto.
      * intros w2 (s2 & Hs2 & Hc2) Hf2. specialize (Hf2 eq_refl).
        exists Finished. split; [|right; reflexivity].
        unfold moves, owns; simpl.
        assert (Hf2' : flag p (mkWorld (sessions w2)
                         (trace w2 ++ [EBackendClose (BackendConn s1)])) = true)
          by exact Hf2.
        rewrite Hf2', Hf2, closes_app, Hc1. simpl.
        destruct (decide (c = c)) as [_|Hne]; [|contradiction].
        split_and!; eauto; try discriminate; lia.
Qed.

Lemma fits_code h ctx call :
  CtxSession ctx = Some p ->
  fits p c (if isDisconnect call then Fresh else Quiet)
       (call, code h ctx call).
Proof.
  intros Hp. destruct call as [env packet dir| |script]; simpl.
  - split; simpl; [|tauto]. unfold discard.
    apply follows_quiet_bind; [apply quiet_OnPacket | intros; apply quiet_ret].
  - split; simpl; [apply fresh_OnDisconnect, Hp|].
    split; discriminate.
  - split; simpl; [|tauto]. rewrite Hp. unfold discard.
    apply follows_quiet_bind;
      [apply quiet_backendToClient | intros; apply quiet_ret].
Qed.

Lemma tokens_app (l1 l2 : list Phase) :
  tokens (l1 ++ l2) = (tokens l1 + tokens l2)%nat.
Proof.
  induction l1 as [|a l1 IH]; simpl; [reflexivity|].
  unfold tokens in *; simpl. rewrite IH. lia.
Qed.

Lemma tokens_insert (l : list Phase) : forall i a a',
  l !! i = Some a ->
  (tokens (<[i := a']> l) + token a = tokens l + token a')%nat.
Proof.
  induction l as [|b l IH]; intros [|i] a a'; simpl; try discriminate.
  - intros [= ->]. unfold tokens; simpl. lia.
  - intros H. specialize (IH i a a' H). unfold tokens in *; simpl. lia.
Qed.

(** Every move of the scheduler keeps the bookkeeping in balance. *)
Lemma sched_balanced h ctx before m e :
  CtxSession ctx = Some p ->
  balanced p c before m -> balanced p c before (sched h ctx m e).
Proof.
  intros Hp (phases & Hfit & Ho & Hbal & Hflagged & Hquiet).
  destruct e as [call|i]; simpl.
  - exists (phases ++ [if isDisconnect call then Fresh else Quiet])%list.
    simpl. split_and!.
    + apply Forall2_app; [exact Hfit|].
      constructor; [apply fits_code, Hp | constructor].
    + exact Ho.
    + rewrite tokens_app. unfold tokens at 2; simpl.
      destruct (isDisconnect call); simpl; lia.
    + intros a Ha Hfl. apply elem_of_app in Ha as [Ha|Ha]; [eauto|].
      apply list_elem_of_singleton in Ha. subst a.
      destruct (isDisconnect call); discriminate Hfl.
    + intros Hall. apply Hquiet. intros a Ha.
      apply Hall, elem_of_app. left; exact Ha.
  - destruct (pool m !! i) as [[call prog]|] eqn:Hi;
      [|exists phases; split_and!; assumption].
    destruct prog as [x|msg|X op k];
      try (exists phases; split_and!; assumption).
    destruct (Forall2_lookup_r _ _ _ _ _ Hfit Hi) as (a & Ha & Hfollow & Htag).
    simpl in Hfollow, Htag.
    destruct (Hfollow (world m) Ho) as (a' & Hmv & Hk).
    { intros Hfl. apply (Hflagged a); [|exact Hfl].
      apply list_elem_of_lookup_2 in Ha. exact Ha. }
    destruct (perform op (world m)) as [x w'] eqn:Hperf. simpl in Hmv, Hk.
    destruct Hmv as (Ho' & Hmono & Hbal' & Hq & Hnq & Hfl').
    exists (<[i := a']> phases). simpl. split_and!.
    + apply Forall2_insert; [exact Hfit|].
      split; simpl; [exact Hk|]. rewrite <- Htag.
      split; [intros ->|intros ->; apply Hq; reflexivity].
      destruct (decide (a = Quiet)) as [|Hne]; [assumption|].
      exfalso. apply (Hnq Hne). reflexivity.
    + exact Ho'.
    + pose proof (tokens_insert phases i a a' Ha). lia.
    + intros b Hb Hfl. apply list_elem_of_lookup_1 in Hb as [j Hj].
      apply list_lookup_insert_Some in Hj as [(_ & <- & _)|(_ & Hj)];
        [apply Hfl', Hfl|].
      apply Hmono, (Hflagged b); [|exact Hfl].
      apply list_elem_of_lookup_2 in Hj. exact Hj.
    + intros Hall.
      assert (Ha' : a' = Quiet).
      { apply Hall, list_elem_of_lookup. exists i.
        apply list_lookup_insert_eq. apply lookup_lt_Some in Ha. exact Ha. }
      assert (Haq : a = Quiet).
      { destruct (decide (a = Quiet)) as [|Hne]; [assumption|].
        exfalso. apply (Hnq Hne), Ha'. }
      destruct (Hq Haq) as [_ ->]. apply Hquiet.
      intros b Hb. apply list_elem_of_lookup_1 in Hb as [j Hj].
      destruct (decide (i = j)) as [<-|Hne]; [congruence|].
      apply Hall, list_elem_of_lookup. exists j.
      rewrite list_lookup_insert_ne by exact Hne. exact Hj.
Qed.

Lemma schedule_balanced h ctx before es : forall m,
  CtxSession ctx = Some p ->
  balanced p c before m ->
  balanced p c before (fold_left (sched h ctx) es m).
Proof.
  induction es as [|e es IH]; intros m Hp Hm; simpl; [exact Hm|].
  apply IH; [exact Hp | apply sched_balanced; assumption].
Qed.

(** When every task has come to its end, no close is owed; the flag is
    set if an OnDisconnect is among them and clear if none is. *)
Lemma ended_phases (phases : list Phase) (tasks : list (Call * Prog unit)) :
  Forall2 (fits p c) phases tasks ->
  forallb ended tasks = true ->
  tokens phases = 0%nat
  /\ (existsb (fun t => isDisconnect (fst t)) tasks = true ->
      exists a, a ∈ phases /\ flagged a = true)
  /\ (existsb (fun t => isDisconnect (fst t)) tasks = false ->
      forall a, a ∈ phases -> a = Quiet).
Proof.
  induction 1 as [|a [call prog] phases tasks [Hfollow Htag] _ IH]; simpl.
  - intros _. split_and!; [reflexivity | discriminate|].
    intros _ a Ha. apply elem_of_nil in Ha. contradiction.
  - intros Hend. apply andb_prop in Hend as [Hprog Hrest].
    destruct (IH Hrest) as (Htok & Hsome & Hnone).
    simpl in Hfollow, Htag.
    assert (Hphase : a = Quiet \/ a = Finished)
      by (destruct prog; [exact Hfollow | exact Hfollow | discriminate Hprog]).
    split_and!.
    + unfold tokens in *; simpl. rewrite Htok.
      destruct Hphase as [-> | ->]; reflexivity.
    + intros Hex. apply orb_prop in Hex as [Hd|Hex].
      * exists a. split; [left|].
        destruct Hphase as [-> | ->]; [|reflexivity].
        destruct Htag as [Htag _]. rewrite Htag in Hd by reflexivity.
        discriminate Hd.
      * destruct (Hsome Hex) as (b & Hb & Hfl). exists b.
        split; [right; exact Hb | exact Hfl].
    + intros Hex b Hb. apply orb_false_elim in Hex as [Hd Hex].
      apply elem_of_cons in Hb as [-> | Hb]; [apply Htag, Hd|].
      apply (Hnone Hex), Hb.
Qed.

End CloseFacts.

Section CloseClaims.
Import Forwarder.

(** What a successful [OnConnect] leaves behind: a new open session,
    attached to the context, and no socket closed. *)
Lemma OnConnect_Handled net h ctx w0 ctx' h' w1 :
  run (OnConnect net h ctx) w0
  = (Returns (mkResult Handled None, ctx', h'), w1) ->
  exists s,
    CtxSession ctx' = Some (length (sessions w0))
    /\ sessions w1 !! length (sessions w0) = Some s
    /\ closed s = false
    /\ forall c, closes c (trace w1) = closes c (trace w0).
Proof.
  unfold OnConnect.
  destruct (decide (GetString ctx "backend" = "")); [discriminate|].
  destruct (ResolveUDPAddr net _) as [err|backendAddr]; [discriminate|].
  destruct (DialUDP net backendAddr) as [err|backendConn]; [discriminate|].
  simpl. destruct (InitialPacket ctx) as [|b rest]; simpl.
  - intros [= <- <- <-]. eexists. split_and!; [reflexivity | | |].
    + simpl. apply list_lookup_middle. reflexivity.
    + reflexivity.
    + intros c. simpl. rewrite !closes_app. simpl.
      rewrite !Nat.add_0_r. reflexivity.
  - destruct (initialWriteErr net); simpl; [discriminate|].
    intros [= <- <- <-]. eexists. split_and!; [reflexivity | | |].
    + simpl. apply list_lookup_middle. reflexivity.
    + reflexivity.
    + intros c. simpl. rewrite !closes_app. simpl.
      rewrite !Nat.add_0_r. reflexivity.
Qed.

(** X24.  For every session a successful [OnConnect] created,
    and every interleaving of the atomic steps of any calls of
    [OnPacket], [OnDisconnect] and the pump on its context: the backend
    socket is closed at most once at every moment, and at any moment at
    which all the calls started have come to their end it has been
    closed exactly once if an [OnDisconnect] was among them, and not at
    all otherwise (the pump and [OnPacket] never close it). *)
Theorem close_once_after_connect (net : ConnectEnv) (h : ForwarderHandler)
    (ctx : Context) (w0 : World) (ctx' : Context) (h' : ForwarderHandler)
    (w1 : World) :
  run (OnConnect net h ctx) w0
  = (Returns (mkResult Handled None, ctx', h'), w1) ->
  exists p s,
    CtxSession ctx' = Some p
    /\ sessions w1 !! p = Some s
    /\ closed s = false
    /\ closes (BackendConn s) (trace w1) = closes (BackendConn s) (trace w0)
    /\ forall es,
        let m := schedule h' ctx' w1 es in
        let before := closes (BackendConn s) (trace w1) in
        let now := closes (BackendConn s) (trace (world m)) in
        (now <= before + 1)%nat
        /\ (forallb ended (pool m) = true ->
            now = (before
                   + if existsb (fun t => isDisconnect (fst t)) (pool m)
                     then 1 else 0)%nat).
Proof.
  intros Hrun.
  destruct (OnConnect_Handled _ _ _ _ _ _ _ Hrun) as (s & Hp & Hs & Hc & Hsame).
  exists (length (sessions w0)), s. split_and!; try assumption; [apply Hsame|].
  intros es. cbv zeta.
  set (m := schedule h' ctx' w1 es).
  set (before := closes (BackendConn s) (trace w1)).
  assert (Hbal : balanced (length (sessions w0)) (BackendConn s) before m).
  { apply schedule_balanced; [exact Hp|].
    exists []. simpl. split_and!.
    - constructor.
    - exists s. split; [exact Hs | reflexivity].
    - unfold flag. rewrite Hs, Hc. unfold tokens; simpl. reflexivity.
    - intros a Ha. apply elem_of_nil in Ha. contradiction.
    - intros _. unfold flag. rewrite Hs. exact Hc. }
  destruct Hbal as (phases & Hfit & Ho & Hsum & Hflagged & Hquiet).
  split.
  - destruct (flag (length (sessions w0)) (world m)); simpl in Hsum; lia.
  - intros Hend.
    destruct (ended_phases _ _ _ _ Hfit Hend) as (Htok & Hsome & Hnone).
    rewrite Htok in Hsum.
    destruct (existsb (fun t => isDisconnect (fst t)) (pool m)).
    + destruct (Hsome eq_refl) as (a & Ha & Hfl).
      rewrite (Hflagged a Ha Hfl) in Hsum. simpl in Hsum. lia.
    + rewrite (Hquiet (Hnone eq_refl)) in Hsum. simpl in Hsum. lia.
Qed.

Lemma close_once_after_connect_witness :
  let ctx := routedContext [xc3; x00]%byte in
  let ctx' := clearInitialPacket (attach ctx 0) in
  let h' := {| sessionCounter := wrap64 (0 + 1) |} in
  let w1 := mkWorld [openSession]
              [EDial 5 backendAddress; EBackendWrite 5 [xc3; x00]%byte; EGo 0] in
  exists p s,
    CtxSession ctx' = Some p
    /\ sessions w1 !! p = Some s
    /\ closed s = false
    /\ closes (BackendConn s) (trace w1) = closes (BackendConn s) []
    /\ forall es,
        let m := schedule h' ctx' w1 es in
        let before := closes (BackendConn s) (trace w1) in
        let now := closes (BackendConn s) (trace (world m)) in
        (now <= before + 1)%nat
        /\ (forallb ended (pool m) = true ->
            now = (before
                   + if existsb (fun t => isDisconnect (fst t)) (pool m)
                     then 1 else 0)%nat).
Proof.
  exact (close_once_after_connect reachable {| sessionCounter := 0 |}
           (routedContext [xc3; x00]%byte) (mkWorld [] []) _ _ _ eq_refl).
Defined.

(** The invariant at work: two tasks race to disconnect one session, the
    sweeper making its compare-and-swap between the two steps of the
    listen task; the socket is closed once, by the listen task. *)
Example disconnect_race :
  let m := schedule {| sessionCounter := 1 |} (attach emptyContext 0)
             (mkWorld [openSession] [])
             [Start CallOnDisconnect; Start CallOnDisconnect;
              Step 0; Step 1; Step 0; Step 0; Step 1] in
  forallb ended (pool m) = true
  /\ trace (world m) = [EBackendClose 5].
Proof. split; reflexivity. Qed.

(** The close is [OnDisconnect]'s: when the pump of a session returns
    (here on a read error) the socket is still open, and the
    [OnDisconnect] that follows closes it, once. *)
Example pump_exit_then_disconnect :
  let ctx := clearInitialPacket (attach (routedContext [xc3; x00]%byte) 0) in
  let w1 := mkWorld [openSession]
              [EDial 5 backendAddress; EBackendWrite 5 [xc3; x00]%byte; EGo 0] in
  let w2 := snd (run (backendToClient [readFails] ctx 0) w1) in
  fst (run (backendToClient [readFails] ctx 0) w1) = Returns true
  /\ closes 5 (trace w2) = 0%nat
  /\ closes 5 (trace (snd (run (OnDisconnect {| sessionCounter := 1 |} ctx) w2)))
     = 1%nat.
Proof. vm_compute. repeat split; reflexivity. Qed.

End CloseClaims.

(** * Further properties of the handlers *)

(** ** simple-router *)

Section StaticRouterMore.
Import StaticRouter.

Lemma static_factory_ok (env : gmap string string)
    (raw : RawMessage StaticConfig) (h : StaticHandler) :
  NewStaticHandler env raw = inr h -> backends h <> [] /\ counter h = 0.
Proof.
  unfold NewStaticHandler.
  destruct (decode zeroConfig "invalid static config: " raw) as [err|cfg];
    [discriminate|].
  destruct (Backends cfg) as [|b bs] eqn:Hl.
  - destruct (decide (Backend cfg = "")).
    + destruct (decide (Getenv env "QUIC_RELAY_BACKEND" = ""));
        [discriminate|].
      intros [= <-]; simpl. split; [discriminate | reflexivity].
    + intros [= <-]; simpl. split; [discriminate | reflexivity].
  - intros [= <-]; simpl. split; [discriminate | reflexivity].
Qed.

(** X1.  The environment is a fallback only: as soon as the config names a
    backend, by either key, construction succeeds and the handler is the
    same whatever the environment holds: the list [backends] when it is
    not empty, the single [backend] otherwise. *)
Theorem NewStaticHandler_env_unused (env : gmap string string)
    (cfg : StaticConfig) :
  Backend cfg <> "" \/ Backends cfg <> [] ->
  NewStaticHandler env (RawDecodes cfg)
  = inr {| backends := match Backends cfg with
                       | [] => [Backend cfg]
                       | _ :: _ => Backends cfg
                       end;
           counter := 0 |}.
Proof.
  intros Hcfg. unfold NewStaticHandler; simpl.
  destruct (Backends cfg) as [|b bs]; [|reflexivity].
  destruct (decide (Backend cfg = "")) as [Hb|Hb]; [|reflexivity].
  destruct Hcfg; contradiction.
Qed.

Lemma NewStaticHandler_env_unused_witness :
  NewStaticHandler {[ "QUIC_RELAY_BACKEND" := "10.9.9.9:1" ]}
    (RawDecodes {| Backend := "10.0.0.1:5527"; Backends := [] |})
  = inr {| backends := ["10.0.0.1:5527"]; counter := 0 |}.
Proof.
  apply (NewStaticHandler_env_unused
           {[ "QUIC_RELAY_BACKEND" := "10.9.9.9:1" ]}
           {| Backend := "10.0.0.1:5527"; Backends := [] |}).
  left. simpl. discriminate.
Defined.

Lemma static_OnConnect_step (h : StaticHandler) (ctx : Context) :
  backends h <> [] -> 0 <= counter h < uint64_modulus ->
  exists b,
    backends h !! Z.to_nat (counter h mod Z.of_nat (length (backends h))) = Some b
    /\ OnConnect h ctx
       = Returns (mkResult Continue None, Set_ ctx "backend" (VString b),
                  {| backends := backends h; counter := wrap64 (counter h + 1) |}).
Proof.
  intros Hne Hc.
  assert (Hidx : wrap64 (wrap64 (counter h + 1) - 1) = counter h).
  { unfold wrap64. rewrite Zminus_mod_idemp_l.
    replace (counter h + 1 - 1) with (counter h) by lia.
    apply Z.mod_small, Hc. }
  assert (HN : 0 < Z.of_nat (length (backends h)))
    by (destruct (backends h); [contradiction | simpl; lia]).
  pose proof (Z.mod_pos_bound (counter h) _ HN) as Hr.
  destruct (lookup_lt_is_Some_2 (backends h)
              (Z.to_nat (counter h mod Z.of_nat (length (backends h)))))
    as [b Hb]; [lia|].
  exists b. split; [exact Hb|].
  unfold OnConnect. rewrite Hidx.
  destruct (backends h) eqn:E; [contradiction|].
  rewrite Hb. reflexivity.
Qed.

Lemma static_connects_counter (ctxs : list Context) : forall h,
  backends h <> [] -> 0 <= counter h < uint64_modulus ->
  connects h ctxs
  = Returns {| backends := backends h;
               counter := wrap64 (counter h + Z.of_nat (length ctxs)) |}.
Proof.
  induction ctxs as [|ctx rest IH]; intros h Hne Hc.
  - simpl. rewrite Z.add_0_r, wrap64_small by exact Hc. destruct h; reflexivity.
  - destruct (static_OnConnect_step h ctx Hne Hc) as (b & _ & Hstep).
    cbn [connects]. rewrite Hstep, IH; simpl;
      [|exact Hne | apply wrap64_range].
    do 2 f_equal. change (length (ctx :: rest)) with (S (length rest)).
    rewrite Nat2Z.inj_succ. unfold wrap64.
    rewrite Z.add_mod_idemp_l by discriminate. f_equal. lia.
Qed.

(** X2.  The rotation of the simple-router.  On a handler the factory built,
    no call panics and every call returns Continue; after [n] calls the
    next one sets the key [backend] to the backend at position
    (n mod 2^64) mod N of the N backends, which is position n mod N
    whenever N divides 2^64 (one backend, two, four, ...): then the
    wrap-around of the counter never disturbs the rotation. *)
Theorem StaticRouter_rotation (env : gmap string string)
    (raw : RawMessage StaticConfig) (h0 : StaticHandler)
    (ctxs : list Context) (ctx : Context) :
  NewStaticHandler env raw = inr h0 ->
  let N := Z.of_nat (length (backends h0)) in
  let n := Z.of_nat (length ctxs) in
  exists h1 h2 b,
    connects h0 ctxs = Returns h1
    /\ OnConnect h1 ctx
       = Returns (mkResult Continue None, Set_ ctx "backend" (VString b), h2)
    /\ backends h0 !! Z.to_nat ((n mod uint64_modulus) mod N) = Some b
    /\ (uint64_modulus mod N = 0 -> backends h0 !! Z.to_nat (n mod N) = Some b).
Proof.
  intros Hnew N n.
  destruct (static_factory_ok _ _ _ Hnew) as (Hne & Hc).
  assert (Hrange : 0 <= counter h0 < uint64_modulus)
    by (rewrite Hc; unfold uint64_modulus; lia).
  pose proof (static_connects_counter ctxs h0 Hne Hrange) as Hrun.
  set (h1 := {| backends := backends h0;
                counter := wrap64 (counter h0 + Z.of_nat (length ctxs)) |}) in *.
  destruct (static_OnConnect_step h1 ctx Hne (wrap64_range _)) as (b & Hb & Hstep).
  simpl in Hb. rewrite Hc, Z.add_0_l in Hb. fold n N in Hb.
  eexists h1, _, b. split_and!; [exact Hrun | exact Hstep | exact Hb |].
  intros Hdiv. rewrite <- Hb. do 2 f_equal.
  assert (HN : 0 < N)
    by (unfold N; destruct (backends h0); [contradiction | simpl; lia]).
  symmetry. apply Z.mod_mod_divide.
  apply Z.mod_divide; [lia | exact Hdiv].
Qed.

Lemma StaticRouter_rotation_witness :
  let h0 := {| backends := ["b1:443"; "b2:443"]; counter := 0 |} in
  let ctxs := [emptyContext; emptyContext; emptyContext] in
  exists h1 h2 b,
    connects h0 ctxs = Returns h1
    /\ OnConnect h1 emptyContext
       = Returns (mkResult Continue None,
                  Set_ emptyContext "backend" (VString b), h2)
    /\ backends h0 !! Z.to_nat ((3 mod uint64_modulus) mod 2) = Some b
    /\ (uint64_modulus mod 2 = 0 -> backends h0 !! Z.to_nat (3 mod 2) = Some b).
Proof.
  exact (StaticRouter_rotation ∅
           (RawDecodes {| Backend := ""; Backends := ["b1:443"; "b2:443"] |})
           {| backends := ["b1:443"; "b2:443"]; counter := 0 |}
           [emptyContext; emptyContext; emptyContext] emptyContext eq_refl).
Defined.

End StaticRouterMore.

(** ** sni-router: the factory *)

Section SniFactoryMore.
Import SniRouter.

Lemma build_accepts (entries : list (string * JSON)) : forall acc,
  (exists rs, build entries acc = inr rs) <-> forallb accepted entries = true.
Proof.
  induction entries as [|[sni val] rest IH]; intros acc; simpl.
  - split; eauto.
  - unfold accepted at 1; simpl.
    destruct (backends_of sni val) as [err|[|b bs]]; simpl.
    + split; [intros [rs H]; discriminate | discriminate].
    + split; [intros [rs H]; discriminate | discriminate].
    + apply IH.
Qed.


Lemma unique_key {A B : Type} (l : list (A * B)) (x : A) (y1 y2 : B) :
  NoDup l.*1 -> (x, y1) ∈ l -> (x, y2) ∈ l -> y1 = y2.
Proof.
  induction l as [|[a b] l IH]; simpl; intros Hnd H1 H2.
  - apply elem_of_nil in H1. contradiction.
  - apply NoDup_cons in Hnd as [Hfresh Hnd].
    apply elem_of_cons in H1 as [H1|H1];
      apply elem_of_cons in H2 as [H2|H2]; simplify_eq.
    + reflexivity.
    + exfalso. apply Hfresh. apply (list_elem_of_fmap_2 fst) in H2. exact H2.
    + exfalso. apply Hfresh. apply (list_elem_of_fmap_2 fst) in H1. exact H1.
    + apply IH; assumption.
Qed.

(** What [build] leaves under a key: the route of the entry with that
    key, or what was there before when no entry has it. *)
Lemma build_lookup (entries : list (string * JSON)) : forall acc rs sni,
  NoDup entries.*1 ->
  build entries acc = inr rs ->
  rs !! sni
  = match list_find (fun e => fst e = sni) entries with
    | Some (_, (_, val)) =>
        match backends_of sni val with
        | inr bs => Some (mkRoute bs 0)
        | inl _ => None
        end
    | None => acc !! sni
    end.
Proof.
  induction entries as [|[s val] rest IH]; intros acc rs sni Hnd; simpl.
  - intros [= <-]. reflexivity.
  - apply NoDup_cons in Hnd as [Hfresh Hnd].
    destruct (backends_of s val) as [err|[|b bs]] eqn:Hval; try discriminate.
    intros Hb. rewrite (IH _ _ sni Hnd Hb).
    case_decide as Heq; simpl in Heq.
    + subst s. rewrite Hval.
      destruct (list_find (fun e => fst e = sni) rest) as [[i [s' v']]|] eqn:Hf.
      * apply list_find_Some in Hf as (Hi & Hs & _). simpl in Hs. subst s'.
        exfalso. apply Hfresh.
        apply list_elem_of_lookup_2 in Hi.
        apply (list_elem_of_fmap_2 fst) in Hi. exact Hi.
      * simpl. apply lookup_insert_eq.
    + destruct (list_find (fun e => fst e = sni) rest) as [[i [s' v']]|];
        simpl; [reflexivity|].
      apply lookup_insert_ne. exact Heq.
Qed.

(** X4.  The routes of a handler are the entries of the config: under each
    key the backends of its entry, with the counter at zero, and nothing
    under any other key. *)
Theorem NewDynamicHandler_routes (entries : list (string * JSON))
    (h : DynamicHandler) (sni : string) (r : route) :
  NoDup entries.*1 ->
  NewDynamicHandler (RawDecodes {| Routes := entries |}) = inr h ->
  routes h !! sni = Some r
  <-> exists val,
        (sni, val) ∈ entries
        /\ backends_of sni val = inr (backends r)
        /\ backends r <> [] /\ counter r = 0.
Proof.
  intros Hnd Hnew.
  assert (Hok := NewDynamicHandler_ok _ _ Hnew).
  unfold NewDynamicHandler in Hnew; simpl in Hnew.
  destruct entries as [|e es] eqn:E; [discriminate|]. rewrite <- E in *.
  destruct (build entries ∅) as [err|rs] eqn:Hb; [discriminate|].
  injection Hnew as <-. simpl in *.
  rewrite (build_lookup _ _ _ sni Hnd Hb), lookup_empty.
  destruct (list_find (fun e => fst e = sni) entries) as [[i [s val]]|] eqn:Hf.
  - apply list_find_Some in Hf as (Hi & Hs & _). simpl in Hs. subst s.
    apply list_elem_of_lookup_2 in Hi.
    split.
    + destruct (backends_of sni val) as [err|bs] eqn:Hval; [discriminate|].
      intros [= <-]. simpl. exists val. split_and!; try tauto.
      destruct Hok as [Hok _].
      assert (Hrs : rs !! sni = Some (mkRoute bs 0)).
      { rewrite (build_lookup _ _ _ sni Hnd Hb).
        destruct (list_find (fun e => fst e = sni) entries)
          as [[j [s' v']]|] eqn:Hf'.
        - apply list_find_Some in Hf' as (Hj & Hs' & _). simpl in Hs'. subst s'.
          apply list_elem_of_lookup_2 in Hj.
          rewrite (unique_key _ _ _ _ Hnd Hj Hi), Hval. reflexivity.
        - apply list_find_None in Hf'.
          rewrite Forall_forall in Hf'. exfalso. apply (Hf' _ Hi). reflexivity. }
      apply (Hok _ _ Hrs).
    + intros (val' & Hin & Hval' & _ & Hc).
      rewrite (unique_key _ _ _ _ Hnd Hi Hin), Hval'.
      destruct r as [bs c]. simpl in *. subst c. reflexivity.
  - split; [discriminate|].
    intros (val & Hin & _). apply list_find_None in Hf.
    rewrite Forall_forall in Hf. exfalso. apply (Hf _ Hin). reflexivity.
Qed.

Lemma NewDynamicHandler_routes_witness :
  let entries := [("a.com", JString "backend:443");
                  ("b.com", JArray [Some "b1:443"; Some "b2:443"])] in
  let h := {| routes := {[ "a.com" := mkRoute ["backend:443"] 0;
                           "b.com" := mkRoute ["b1:443"; "b2:443"] 0 ]} |} in
  routes h !! "b.com" = Some (mkRoute ["b1:443"; "b2:443"] 0)
  <-> exists val,
        ("b.com", val) ∈ entries
        /\ backends_of "b.com" val = inr ["b1:443"; "b2:443"]
        /\ ["b1:443"; "b2:443"] <> [] /\ 0 = 0.
Proof.
  apply (NewDynamicHandler_routes
           [("a.com", JString "backend:443");
            ("b.com", JArray [Some "b1:443"; Some "b2:443"])]
           {| routes := {[ "a.com" := mkRoute ["backend:443"] 0;
                           "b.com" := mkRoute ["b1:443"; "b2:443"] 0 ]} |}
           "b.com" (mkRoute ["b1:443"; "b2:443"] 0)).
  - simpl. apply NoDup_cons. split; [|apply NoDup_singleton].
    intros H. apply list_elem_of_singleton in H. discriminate H.
  - vm_compute. reflexivity.
Defined.

Lemma build_lookup_entry (entries : list (string * JSON))
    (rs : gmap string route) (sni : string) (val : JSON) :
  NoDup entries.*1 -> build entries ∅ = inr rs -> (sni, val) ∈ entries ->
  rs !! sni = match backends_of sni val with
              | inr bs => Some (mkRoute bs 0)
              | inl _ => None
              end.
Proof.
  intros Hnd Hb Hin. rewrite (build_lookup _ _ _ sni Hnd Hb).
  destruct (list_find (fun e => fst e = sni) entries) as [[i [s v]]|] eqn:Hf.
  - apply list_find_Some in Hf as (Hi & Hs & _). simpl in Hs. subst s.
    apply list_elem_of_lookup_2 in Hi.
    rewrite (unique_key _ _ _ _ Hnd Hi Hin). reflexivity.
  - apply list_find_None in Hf. rewrite Forall_forall in Hf.
    exfalso. apply (Hf _ Hin). reflexivity.
Qed.

Lemma build_lookup_absent (entries : list (string * JSON))
    (rs : gmap string route) (sni : string) :
  NoDup entries.*1 -> build entries ∅ = inr rs -> sni ∉ entries.*1 ->
  rs !! sni = None.
Proof.
  intros Hnd Hb Hout. rewrite (build_lookup _ _ _ sni Hnd Hb).
  destruct (list_find (fun e => fst e = sni) entries) as [[i [s v]]|] eqn:Hf.
  - apply list_find_Some in Hf as (Hi & Hs & _). simpl in Hs. subst s.
    apply list_elem_of_lookup_2 in Hi.
    apply (list_elem_of_fmap_2 fst) in Hi. contradiction.
  - apply lookup_empty.
Qed.

(** X5.  A Go map is visited in no fixed order.  The handler the factory
    builds does not depend on it: from the same entries visited in any
    other order it builds the same handler. *)
Theorem NewDynamicHandler_order (entries entries' : list (string * JSON))
    (h : DynamicHandler) :
  entries ≡ₚ entries' -> NoDup entries.*1 ->
  NewDynamicHandler (RawDecodes {| Routes := entries |}) = inr h ->
  NewDynamicHandler (RawDecodes {| Routes := entries' |}) = inr h.
Proof.
  intros Hperm Hnd. unfold NewDynamicHandler; simpl.
  destruct entries as [|e es] eqn:E; [discriminate|]. rewrite <- E in *.
  destruct (build entries ∅) as [err|rs] eqn:Hb; [discriminate|].
  intros [= <-].
  destruct entries' as [|e' es'] eqn:E'.
  { apply Permutation_nil_r in Hperm. congruence. }
  rewrite <- E' in *.
  assert (Hnd' : NoDup entries'.*1) by (rewrite <- Hperm; exact Hnd).
  destruct (proj2 (build_accepts entries' ∅)) as [rs' Hb'].
  { apply forallb_forall. intros x Hx.
    pose proof (proj1 (build_accepts entries ∅) (ex_intro _ rs Hb)) as Hall.
    rewrite forallb_forall in Hall. apply Hall.
    apply list_elem_of_In. rewrite Hperm. apply list_elem_of_In. exact Hx. }
  rewrite Hb'. do 2 f_equal. apply map_eq. intros sni.
  destruct (decide (sni ∈ entries.*1)) as [Hin|Hout].
  - apply list_elem_of_fmap in Hin as ([s val] & -> & Hin). simpl.
    rewrite (build_lookup_entry _ _ _ _ Hnd Hb Hin).
    apply (build_lookup_entry _ _ _ _ Hnd' Hb'). rewrite <- Hperm. exact Hin.
  - rewrite (build_lookup_absent _ _ _ Hnd Hb Hout).
    apply (build_lookup_absent _ _ _ Hnd' Hb'). rewrite <- Hperm. exact Hout.
Qed.

Lemma NewDynamicHandler_order_witness :
  NewDynamicHandler
    (RawDecodes {| Routes := [("b.com", JArray [Some "b1:443"; Some "b2:443"]);
                              ("a.com", JString "backend:443")] |})
  = inr {| routes := {[ "a.com" := mkRoute ["backend:443"] 0;
                        "b.com" := mkRoute ["b1:443"; "b2:443"] 0 ]} |}.
Proof.
  apply (NewDynamicHandler_order
           [("a.com", JString "backend:443");
            ("b.com", JArray [Some "b1:443"; Some "b2:443"])]).
  - apply perm_swap.
  - simpl. apply NoDup_cons. split; [|apply NoDup_singleton].
    intros H. apply list_elem_of_singleton in H. discriminate H.
  - vm_compute. reflexivity.
Defined.

End SniFactoryMore.

(** ** sni-router: the calls *)

Section SniRouterMore.
Import SniRouter.

(** X6.  No sequence of calls panics, and none adds a route, removes one or
    changes a backend list: under every key the backends stay the ones
    the factory put there. *)
Theorem SniRouter_routes_fixed (raw : RawMessage DynamicConfig)
    (h0 : DynamicHandler) (ctxs : list Context) :
  NewDynamicHandler raw = inr h0 ->
  exists h,
    connects h0 ctxs = Returns h
    /\ forall sni, backends <$> routes h !! sni = backends <$> routes h0 !! sni.
Proof.
  intros Hnew. destruct (NewDynamicHandler_ok _ _ Hnew) as [Hok _].
  destruct (connects_routes ctxs h0 Hok) as (h & Hrun & _ & _ & Hbs).
  exists h. split; assumption.
Qed.

Lemma SniRouter_routes_fixed_witness :
  let h0 := {| routes := {[ "a.com" := mkRoute ["b1:443"; "b2:443"] 0 ]} |} in
  exists h,
    connects h0 [helloContext "a.com"; helloContext "x.com"] = Returns h
    /\ forall sni, backends <$> routes h !! sni = backends <$> routes h0 !! sni.
Proof.
  exact (SniRouter_routes_fixed
           (RawDecodes {| Routes := [("a.com", JArray [Some "b1:443"; Some "b2:443"])] |})
           {| routes := {[ "a.com" := mkRoute ["b1:443"; "b2:443"] 0 ]} |}
           [helloContext "a.com"; helloContext "x.com"] eq_refl).
Defined.

(** X7.  When the number of backends of a route divides 2^64 (one backend,
    two, four, ...), the wrap-around of its counter never disturbs the
    rotation: after any number K of calls that carried the SNI, however
    large, the next one gets the backend at position K mod N. *)
Theorem SniRouter_rotation_unbounded (raw : RawMessage DynamicConfig)
    (h0 : DynamicHandler) (sni : string) (r0 : route)
    (ctxs : list Context) (ctx : Context) (hello : ClientHello) :
  NewDynamicHandler raw = inr h0 ->
  routes h0 !! sni = Some r0 -> sni <> "" ->
  Hello ctx = Some hello -> SNI hello = sni ->
  let N := Z.of_nat (length (backends r0)) in
  let K := Z.of_nat (hits sni ctxs) in
  uint64_modulus mod N = 0 ->
  exists h1 h2 b,
    connects h0 ctxs = Returns h1
    /\ OnConnect h1 ctx
       = Returns (mkResult Continue None, Set_ ctx "backend" (VString b), h2)
    /\ backends r0 !! Z.to_nat (K mod N) = Some b.
Proof.
  intros Hnew Hr0 Hsni Hh Hs N K Hdiv.
  destruct (NewDynamicHandler_ok _ _ Hnew) as [Hok Hfresh].
  pose proof (Hfresh _ _ Hr0) as Hc. destruct (Hok _ _ Hr0) as [Hne _].
  destruct (connects_routes ctxs h0 Hok) as (h1 & Hrun & Hok1 & Hcnt & _).
  pose proof (Hcnt sni Hsni) as Hr1. rewrite Hr0 in Hr1. simpl in Hr1.
  subst sni.
  destruct (OnConnect_known _ _ _ _ Hh Hsni Hr1 Hne) as (b & Hb & Hstep).
  eexists h1, _, b. split_and!; [exact Hrun | exact Hstep |].
  rewrite pick_counter in Hb by (simpl; apply wrap64_range).
  simpl in Hb. rewrite Hc, Z.add_0_l in Hb. rewrite <- Hb.
  do 2 f_equal. unfold wrap64. symmetry. apply Z.mod_mod_divide.
  assert (HN : 0 < N)
    by (unfold N; destruct (backends r0); [contradiction | simpl; lia]).
  apply Z.mod_divide; [lia | exact Hdiv].
Qed.

Lemma SniRouter_rotation_unbounded_witness :
  let r0 := mkRoute ["b1:443"; "b2:443"] 0 in
  let h0 := {| routes := {[ "a.com" := r0 ]} |} in
  let ctx := helloContext "a.com" in
  let ctxs := [helloContext "a.com"; helloContext "b.com"; helloContext "a.com";
               helloContext "a.com"] in
  exists h1 h2 b,
    connects h0 ctxs = Returns h1
    /\ OnConnect h1 ctx
       = Returns (mkResult Continue None, Set_ ctx "backend" (VString b), h2)
    /\ backends r0 !! Z.to_nat (3 mod 2) = Some b.
Proof.
  apply (SniRouter_rotation_unbounded
           (RawDecodes {| Routes := [("a.com", JArray [Some "b1:443"; Some "b2:443"])] |})
           {| routes := {[ "a.com" := mkRoute ["b1:443"; "b2:443"] 0 ]} |}
           "a.com" (mkRoute ["b1:443"; "b2:443"] 0)
           [helloContext "a.com"; helloContext "b.com"; helloContext "a.com";
            helloContext "a.com"]
           (helloContext "a.com") {| SNI := "a.com"; ALPN := [] |});
    try reflexivity; discriminate.
Defined.

End SniRouterMore.

(** ** ratelimit-global: the factory *)

Section RateLimitMore.
Import RateLimit.

(** X8.  The factory accepts exactly the configs that decode and hold a
    limit above zero, and the handler holds that limit; a missing
    config, a config that does not decode, zero and negative limits are
    all refused. *)
Theorem NewRateLimitGlobalHandler_accepts
    (raw : RawMessage RateLimitGlobalConfig) (h : RateLimitGlobalHandler) :
  NewRateLimitGlobalHandler raw = inr h
  <-> exists n, raw = RawDecodes {| MaxParallelConnections := n |}
                /\ 0 < n /\ h = {| maxParallelConnections := n |}.
Proof.
  split.
  - intros Hnew. exists (maxParallelConnections h).
    destruct (NewRateLimitGlobalHandler_inv _ _ Hnew) as [Hpos Hraw].
    split_and!; [exact Hraw | exact Hpos | destruct h; reflexivity].
  - intros (n & -> & Hpos & ->). unfold NewRateLimitGlobalHandler; simpl.
    destruct (decide (n <= 0)); [lia | reflexivity].
Qed.

End RateLimitMore.

(** ** forwarder: what one call leaves behind *)

Section ForwarderMore.
Import Forwarder.

(** The two ways [OnConnect] can end: nothing happened at all, or one
    session was added behind the next pointer and attached to the
    context. *)
Lemma OnConnect_effect (net : ConnectEnv) (h : ForwarderHandler)
    (ctx : Context) (w : World) :
  exists r ctx' h' w',
    run (OnConnect net h ctx) w = (Returns (r, ctx', h'), w')
    /\ ((w' = w /\ h' = h /\ ctx' = ctx
         /\ action r = Drop /\ is_Some (error r))
        \/ (exists s tr,
              sessions w' = (sessions w ++ [s])%list
              /\ trace w' = (trace w ++ tr)%list
              /\ ID s = wrap64 (sessionCounter h + 1)
              /\ sessionCounter h' = ID s
              /\ closed s = false
              /\ clientAddr s = ClientAddr ctx
              /\ CtxSession ctx' = Some (length (sessions w))
              /\ (action r = Handled /\ error r = None
                  \/ action r = Drop /\ is_Some (error r)))).
Proof.
  unfold OnConnect.
  destruct (decide (GetString ctx "backend" = "")).
  { do 4 eexists. split; [reflexivity|]. left. simpl. eauto 10. }
  destruct (ResolveUDPAddr net _) as [err|backendAddr].
  { do 4 eexists. split; [reflexivity|]. left. simpl. eauto 10. }
  destruct (DialUDP net backendAddr) as [err|backendConn].
  { do 4 eexists. split; [reflexivity|]. left. simpl. eauto 10. }
  simpl. destruct (InitialPacket ctx) as [|b rest]; simpl.
  - do 4 eexists. split; [reflexivity|]. right. simpl.
    do 2 eexists. rewrite <- app_assoc.
    split_and!; try reflexivity. left; split; reflexivity.
  - destruct (initialWriteErr net) as [err|]; simpl.
    + do 4 eexists. split; [reflexivity|]. right. simpl.
      do 2 eexists. rewrite <- !app_assoc.
      split_and!; try reflexivity. right; split; eauto.
    + do 4 eexists. split; [reflexivity|]. right. simpl.
      do 2 eexists. rewrite <- !app_assoc.
      split_and!; try reflexivity. left; split; reflexivity.
Qed.

(** X9.  [OnConnect] never panics and never touches what is there: every
    session that existed is unchanged behind the same pointer, every
    call issued before is still in the trace, and at most one session is
    added. *)
Theorem OnConnect_keeps_sessions (net : ConnectEnv) (h : ForwarderHandler)
    (ctx : Context) (w : World) :
  exists r ctx' h' w',
    run (OnConnect net h ctx) w = (Returns (r, ctx', h'), w')
    /\ (forall p s, sessions w !! p = Some s -> sessions w' !! p = Some s)
    /\ (length (sessions w') <= S (length (sessions w)))%nat
    /\ exists tr, trace w' = (trace w ++ tr)%list.
Proof.
  destruct (OnConnect_effect net h ctx w)
    as (r & ctx' & h' & w' & Hrun & [(-> & _)|(s & tr & Hs & Htr & _)]).
  - exists r, ctx', h', w. split_and!; [exact Hrun | tauto | lia|].
    exists []. rewrite app_nil_r. reflexivity.
  - exists r, ctx', h', w'. split_and!; [exact Hrun | | |eauto].
    + intros p s0 Hp. rewrite Hs. apply lookup_app_l_Some. exact Hp.
    + rewrite Hs, length_app. simpl. lia.
Qed.

(** X10.  A connection that fails before a socket exists leaves nothing
    behind: with no backend in the context, a backend that does not
    resolve, or a dial that fails, [OnConnect] returns Drop with an
    error; the context, the handler (no session ID is used up) and the
    world are as they were. *)
Theorem OnConnect_fails_early (net : ConnectEnv) (h : ForwarderHandler)
    (ctx : Context) (w : World) :
  GetString ctx "backend" = ""
  \/ (exists err, ResolveUDPAddr net (GetString ctx "backend") = inl err)
  \/ (exists addr err,
        ResolveUDPAddr net (GetString ctx "backend") = inr addr
        /\ DialUDP net addr = inl err) ->
  exists err,
    run (OnConnect net h ctx) w = (Returns (mkResult Drop (Some err), ctx, h), w).
Proof.
  unfold OnConnect. intros [Hb|[[err Hr]|(addr & err & Hr & Hd)]].
  - rewrite Hb. simpl. eauto.
  - destruct (decide (GetString ctx "backend" = "")); [eauto|].
    rewrite Hr. eauto.
  - destruct (decide (GetString ctx "backend" = "")); [eauto|].
    rewrite Hr, Hd. eauto.
Qed.

Lemma OnConnect_fails_early_witness :
  exists err,
    run (OnConnect reachable {| sessionCounter := 4 |} emptyContext)
        (mkWorld [openSession] [EDial 5 backendAddress])
    = (Returns (mkResult Drop (Some err), emptyContext, {| sessionCounter := 4 |}),
       mkWorld [openSession] [EDial 5 backendAddress]).
Proof.
  apply (OnConnect_fails_early reachable {| sessionCounter := 4 |} emptyContext
           (mkWorld [openSession] [EDial 5 backendAddress])).
  left. reflexivity.
Defined.

(** X11.  When the first write fails, [OnConnect] returns Drop with the error
    of the write after closing the socket it dialed.  The pump is not
    started, but a session ID is used up, and the context keeps the
    session, with its closed-flag clear, and the buffered packet. *)
Theorem OnConnect_first_write_fails (net : ConnectEnv) (h : ForwarderHandler)
    (ctx : Context) (w : World) (backendAddr : UDPAddr) (backendConn : Conn)
    (err : string) :
  GetString ctx "backend" <> "" ->
  ResolveUDPAddr net (GetString ctx "backend") = inr backendAddr ->
  DialUDP net backendAddr = inr backendConn ->
  InitialPacket ctx <> [] ->
  initialWriteErr net = Some err ->
  let p := length (sessions w) in
  let id := wrap64 (sessionCounter h + 1) in
  let session :=
    {| ID := id; BackendAddr := backendAddr; BackendConn := backendConn;
       CreatedAt := connectNow net; clientAddr := ClientAddr ctx;
       LastActivity := connectNow net; closed := false |} in
  run (OnConnect net h ctx) w
  = (Returns (mkResult Drop (Some err), attach ctx p, {| sessionCounter := id |}),
     mkWorld (sessions w ++ [session])
             (trace w ++ [EDial backendConn backendAddr;
                          EBackendWrite backendConn (InitialPacket ctx);
                          EBackendClose backendConn])).
Proof.
  intros Hb Hres Hdial Hinit Herr p id session. unfold OnConnect.
  destruct (decide (GetString ctx "backend" = "")); [contradiction|].
  rewrite Hres, Hdial. simpl.
  destruct (InitialPacket ctx) as [|b rest] eqn:E; [contradiction|]. simpl.
  rewrite Herr. simpl. rewrite <- !app_assoc. reflexivity.
Qed.

Lemma OnConnect_first_write_fails_witness :
  let ctx := routedContext [xc3; x00]%byte in
  run (OnConnect unwritable {| sessionCounter := 0 |} ctx) (mkWorld [] [])
  = (Returns (mkResult Drop (Some "write: connection refused"), attach ctx 0,
              {| sessionCounter := wrap64 (0 + 1) |}),
     mkWorld ([] ++ [openSession])
             ([] ++ [EDial 5 backendAddress;
                     EBackendWrite 5 (InitialPacket ctx);
                     EBackendClose 5])).
Proof.
  apply (OnConnect_first_write_fails unwritable {| sessionCounter := 0 |}
           (routedContext [xc3; x00]%byte) (mkWorld [] []) backendAddress 5%nat
           "write: connection refused");
    try reflexivity; discriminate.
Defined.

(** X12.  A connection that succeeds with a buffered first datagram: the
    datagram is written once, as it is, to the socket just dialed, before
    the pump is started; the context comes back with the session
    attached and the buffer released. *)
Theorem OnConnect_forwards_initial (net : ConnectEnv) (h : ForwarderHandler)
    (ctx : Context) (w : World) (backendAddr : UDPAddr) (backendConn : Conn) :
  GetString ctx "backend" <> "" ->
  ResolveUDPAddr net (GetString ctx "backend") = inr backendAddr ->
  DialUDP net backendAddr = inr backendConn ->
  InitialPacket ctx <> [] ->
  initialWriteErr net = None ->
  let p := length (sessions w) in
  let id := wrap64 (sessionCounter h + 1) in
  let session :=
    {| ID := id; BackendAddr := backendAddr; BackendConn := backendConn;
       CreatedAt := connectNow net; clientAddr := ClientAddr ctx;
       LastActivity := connectNow net; closed := false |} in
  run (OnConnect net h ctx) w
  = (Returns (mkResult Handled None, clearInitialPacket (attach ctx p),
              {| sessionCounter := id |}),
     mkWorld (sessions w ++ [session])
             (trace w ++ [EDial backendConn backendAddr;
                          EBackendWrite backendConn (InitialPacket ctx);
                          EGo p]))
  /\ InitialPacket (clearInitialPacket (attach ctx p)) = [].
Proof.
  intros Hb Hres Hdial Hinit Herr p id session. split; [|reflexivity].
  unfold OnConnect.
  destruct (decide (GetString ctx "backend" = "")); [contradiction|].
  rewrite Hres, Hdial. simpl.
  destruct (InitialPacket ctx) as [|b rest] eqn:E; [contradiction|]. simpl.
  rewrite Herr. simpl. rewrite <- !app_assoc. reflexivity.
Qed.

Lemma OnConnect_forwards_initial_witness :
  let ctx := routedContext [xc3; x00]%byte in
  run (OnConnect reachable {| sessionCounter := 0 |} ctx) (mkWorld [] [])
  = (Returns (mkResult Handled None, clearInitialPacket (attach ctx 0),
              {| sessionCounter := wrap64 (0 + 1) |}),
     mkWorld ([] ++ [openSession])
             ([] ++ [EDial 5 backendAddress;
                     EBackendWrite 5 (InitialPacket ctx);
                     EGo 0]))
  /\ InitialPacket (clearInitialPacket (attach ctx 0)) = [].
Proof.
  apply (OnConnect_forwards_initial reachable {| sessionCounter := 0 |}
           (routedContext [xc3; x00]%byte) (mkWorld [] []) backendAddress 5%nat);
    try reflexivity; discriminate.
Defined.

(** *** Session IDs *)

Lemma OnConnects_ids (calls : list (ConnectEnv * Context)) : forall h w,
  sessionCounter h = Z.of_nat (length (sessions w)) ->
  ID <$> sessions w = Z.of_nat <$> seq 1 (length (sessions w)) ->
  Z.of_nat (length (sessions w) + length calls) < uint64_modulus ->
  exists h' w',
    run (OnConnects h calls) w = (Returns h', w')
    /\ sessionCounter h' = Z.of_nat (length (sessions w'))
    /\ ID <$> sessions w' = Z.of_nat <$> seq 1 (length (sessions w'))
    /\ (length (sessions w') <= length (sessions w) + length calls)%nat.
Proof.
  induction calls as [|[net ctx] rest IH]; intros h w Hc Hids Hbound.
  - exists h, w. simpl. split_and!; try assumption; try reflexivity. lia.
  - cbn [OnConnects]. rewrite run_bind.
    destruct (OnConnect_effect net h ctx w)
      as (r & ctx' & h1 & w1 & Hrun & Heff).
    rewrite Hrun. simpl snd.
    simpl length in Hbound.
    destruct Heff as [(-> & -> & _)|(s & tr & Hs & _ & Hid & Hh1 & _)].
    + destruct (IH h w Hc Hids) as (h' & w' & Hrest & Hc' & Hids' & Hlen);
        [lia|].
      exists h', w'. split_and!; try assumption. simpl. lia.
    + assert (Hnew : ID s = Z.of_nat (S (length (sessions w)))).
      { rewrite Hid, Hc. rewrite wrap64_small; lia. }
      destruct (IH h1 w1) as (h' & w' & Hrest & Hc' & Hids' & Hlen).
      * rewrite Hh1, Hnew, Hs, length_app. simpl. f_equal. lia.
      * rewrite Hs, fmap_app, length_app, Hids. simpl.
        rewrite Nat.add_1_r, seq_S, fmap_app. simpl.
        rewrite Hnew. reflexivity.
      * rewrite Hs, length_app. simpl. lia.
      * exists h', w'. split_and!; try assumption.
        rewrite Hs, length_app in Hlen. simpl in Hlen. simpl. lia.
Qed.

(** X13.  Session IDs are handed out in order and without gaps: whatever a
    sequence of fewer than 2^64 [OnConnect] calls on a new handler meets
    on the network, the sessions it creates carry the IDs 1, 2, 3, ...
    in the order of creation, and the counter of the handler is the
    number of sessions created. *)
Theorem session_ids_in_order (calls : list (ConnectEnv * Context))
    (tr : list Event) :
  Z.of_nat (length calls) < uint64_modulus ->
  exists h w,
    run (OnConnects {| sessionCounter := 0 |} calls) (mkWorld [] tr)
    = (Returns h, w)
    /\ ID <$> sessions w = Z.of_nat <$> seq 1 (length (sessions w))
    /\ sessionCounter h = Z.of_nat (length (sessions w))
    /\ (length (sessions w) <= length calls)%nat.
Proof.
  intros Hbound.
  destruct (OnConnects_ids calls {| sessionCounter := 0 |} (mkWorld [] tr))
    as (h & w & Hrun & Hc & Hids & Hlen); try reflexivity.
  - simpl. exact Hbound.
  - exists h, w. split_and!; assumption.
Qed.

Lemma session_ids_in_order_witness :
  exists h w,
    run (OnConnects {| sessionCounter := 0 |}
           [(reachable, routedContext []); (reachable, emptyContext);
            (unwritable, routedContext [xc3]%byte)])
        (mkWorld [] [])
    = (Returns h, w)
    /\ ID <$> sessions w = Z.of_nat <$> seq 1 (length (sessions w))
    /\ sessionCounter h = Z.of_nat (length (sessions w))
    /\ (length (sessions w) <= 3)%nat.
Proof.
  apply (session_ids_in_order
           [(reachable, routedContext []); (reachable, emptyContext);
            (unwritable, routedContext [xc3]%byte)] []).
  reflexivity.
Defined.

End ForwarderMore.

(** ** forwarder: packets, disconnect and the pump, call after call *)

Section ForwarderSequences.
Import Forwarder.

(** X14.  An outbound packet is not the forwarder's to send: on an open
    session [OnPacket] only touches [LastActivity] and returns Handled;
    nothing is written, and a packet of no bytes is as good as any. *)
Theorem OnPacket_outbound (env : PacketEnv) (h : ForwarderHandler)
    (ctx : Context) (packet : list byte) (w : World)
    (p : SessionPtr) (s : Session) :
  CtxSession ctx = Some p -> sessions w !! p = Some s -> closed s = false ->
  run (OnPacket env h ctx packet Outbound) w
  = (Returns (mkResult Handled None),
     mkWorld (alter (setLastActivity (packetNow env)) p (sessions w)) (trace w)).
Proof.
  intros Hp Hs Hc. unfold OnPacket. rewrite Hp. simpl.
  rewrite Hs. simpl. rewrite Hc. reflexivity.
Qed.

Lemma OnPacket_outbound_witness :
  run (OnPacket {| packetNow := 9; backendWriteErr := None |}
         {| sessionCounter := 1 |} (attach emptyContext 0) [] Outbound)
      (mkWorld [openSession] [])
  = (Returns (mkResult Handled None),
     mkWorld (alter (setLastActivity 9) 0%nat [openSession]) []).
Proof.
  apply (OnPacket_outbound {| packetNow := 9; backendWriteErr := None |}
           {| sessionCounter := 1 |} (attach emptyContext 0) []
           (mkWorld [openSession] []) 0%nat openSession);
    reflexivity.
Defined.

(** X15.  What [OnPacket] can change, on any context and in any world: of
    the sessions, only the last-activity time of the session of its
    context; of the trace, at most one call added, a write of the
    packet. *)
Theorem OnPacket_footprint (env : PacketEnv) (h : ForwarderHandler)
    (ctx : Context) (packet : list byte) (dir : Direction) (w : World) :
  let w' := snd (run (OnPacket env h ctx packet dir) w) in
  (sessions w' = sessions w
   \/ exists p, CtxSession ctx = Some p
                /\ sessions w'
                   = alter (setLastActivity (packetNow env)) p (sessions w))
  /\ (trace w' = trace w
      \/ exists c, trace w' = (trace w ++ [EBackendWrite c packet])%list).
Proof.
  assert (Hsame : forall (l : list Session) (tr : list Event),
      (l = l \/ exists p, CtxSession ctx = Some p
                          /\ l = alter (setLastActivity (packetNow env)) p l)
      /\ (tr = tr \/ exists c, tr = (tr ++ [EBackendWrite c packet])%list))
    by (intros; split; left; reflexivity).
  unfold OnPacket. destruct (CtxSession ctx) as [p|] eqn:Hp; simpl;
    [|apply Hsame].
  destruct (sessions w !! p) as [s|] eqn:Hs; simpl; [|apply Hsame].
  destruct (closed s); simpl; [apply Hsame|].
  destruct dir; simpl.
  - destruct packet as [|b rest]; simpl.
    + split; [right; eauto | left; reflexivity].
    + rewrite (lookup_touch _ _ _ _ Hs). simpl.
      destruct (backendWriteErr env); simpl;
        (split; [right; eauto | right; eauto]).
  - split; [right; eauto | left; reflexivity].
Qed.

(** *** OnDisconnect *)

Lemma OnDisconnect_open (h : ForwarderHandler) (ctx : Context) (w : World)
    (p : SessionPtr) (s : Session) :
  CtxSession ctx = Some p -> sessions w !! p = Some s -> closed s = false ->
  run (OnDisconnect h ctx) w
  = (Returns tt,
     mkWorld (<[p := markClosed s]> (sessions w))
             (trace w ++ [EBackendClose (BackendConn s)])).
Proof.
  intros Hp Hs Hc. unfold OnDisconnect. rewrite Hp. simpl.
  rewrite Hs, Hc. simpl.
  rewrite list_lookup_insert_eq by (apply lookup_lt_Some in Hs; exact Hs).
  reflexivity.
Qed.

Lemma OnDisconnect_closed (h : ForwarderHandler) (ctx : Context) (w : World)
    (p : SessionPtr) (s : Session) :
  CtxSession ctx = Some p -> sessions w !! p = Some s -> closed s = true ->
  run (OnDisconnect h ctx) w = (Returns tt, w).
Proof.
  intros Hp Hs Hc. unfold OnDisconnect. rewrite Hp. simpl.
  rewrite Hs, Hc. reflexivity.
Qed.

(** X16.  [OnDisconnect] on an open session sets the closed-flag and closes
    the backend socket of that session, once; the same call again, from
    whatever task, finds the flag set and does nothing. *)
Theorem OnDisconnect_twice (h : ForwarderHandler) (ctx : Context) (w : World)
    (p : SessionPtr) (s : Session) :
  CtxSession ctx = Some p -> sessions w !! p = Some s -> closed s = false ->
  let w1 := mkWorld (<[p := markClosed s]> (sessions w))
                    (trace w ++ [EBackendClose (BackendConn s)]) in
  run (OnDisconnect h ctx) w = (Returns tt, w1)
  /\ run (OnDisconnect h ctx) w1 = (Returns tt, w1).
Proof.
  intros Hp Hs Hc w1. split; [apply (OnDisconnect_open _ _ _ _ _ Hp Hs Hc)|].
  apply (OnDisconnect_closed _ _ _ p (markClosed s) Hp); [|reflexivity].
  simpl. apply list_lookup_insert_eq. apply lookup_lt_Some in Hs. exact Hs.
Qed.

Lemma OnDisconnect_twice_witness :
  let ctx := attach emptyContext 0 in
  let w1 := mkWorld (<[0%nat := markClosed openSession]> [openSession])
                    ([] ++ [EBackendClose (BackendConn openSession)]) in
  run (OnDisconnect {| sessionCounter := 1 |} ctx) (mkWorld [openSession] [])
  = (Returns tt, w1)
  /\ run (OnDisconnect {| sessionCounter := 1 |} ctx) w1 = (Returns tt, w1).
Proof.
  apply (OnDisconnect_twice {| sessionCounter := 1 |} (attach emptyContext 0)
           (mkWorld [openSession] []) 0%nat openSession);
    reflexivity.
Defined.

(** X17.  Once [OnDisconnect] has run, call after call, the session is dead to
    the handler: every [OnPacket] on its context returns Drop with no
    error, the pump returns at its next check, and neither issues a call
    or changes a session. *)
Theorem silent_after_OnDisconnect (h : ForwarderHandler) (ctx : Context)
    (w : World) (p : SessionPtr) (s : Session) :
  CtxSession ctx = Some p -> sessions w !! p = Some s -> closed s = false ->
  let w1 := snd (run (OnDisconnect h ctx) w) in
  (forall env packet dir,
      run (OnPacket env h ctx packet dir) w1 = (Returns (mkResult Drop None), w1))
  /\ (forall env rest,
        run (backendToClient (env :: rest) ctx p) w1 = (Returns true, w1)).
Proof.
  intros Hp Hs Hc w1. unfold w1.
  rewrite (OnDisconnect_open _ _ _ _ _ Hp Hs Hc). simpl.
  assert (Hs1 : <[p := markClosed s]> (sessions w) !! p = Some (markClosed s))
    by (apply list_lookup_insert_eq; apply lookup_lt_Some in Hs; exact Hs).
  split.
  - intros env packet dir.
    apply (OnPacket_closed env h ctx packet dir
             (mkWorld (<[p := markClosed s]> (sessions w))
                      (trace w ++ [EBackendClose (BackendConn s)]))
             p (markClosed s) Hp Hs1).
    reflexivity.
  - intros env rest. cbn [backendToClient]. rewrite run_bind.
    unfold pumpRound. simpl. rewrite Hs1. reflexivity.
Qed.

Lemma silent_after_OnDisconnect_witness :
  let h := {| sessionCounter := 1 |} in
  let ctx := attach emptyContext 0 in
  let w1 := snd (run (OnDisconnect h ctx) (mkWorld [openSession] [])) in
  (forall env packet dir,
      run (OnPacket env h ctx packet dir) w1 = (Returns (mkResult Drop None), w1))
  /\ (forall env rest,
        run (backendToClient (env :: rest) ctx 0) w1 = (Returns true, w1)).
Proof.
  apply (silent_after_OnDisconnect {| sessionCounter := 1 |}
           (attach emptyContext 0) (mkWorld [openSession] []) 0%nat openSession);
    reflexivity.
Defined.

(** *** Packets in order *)

Lemma OnPackets_run (packets : list (PacketEnv * list byte))
    (h : ForwarderHandler) (ctx : Context) (p : SessionPtr) (c : Conn) :
  CtxSession ctx = Some p ->
  Forall (fun ep => snd ep <> []) packets ->
  forall w s,
    sessions w !! p = Some s -> closed s = false -> BackendConn s = c ->
    exists w',
      run (OnPackets h ctx Inbound packets) w
      = (Returns (map (fun ep => written (fst ep)) packets), w')
      /\ trace w'
         = (trace w ++ map (fun ep => EBackendWrite c (snd ep)) packets)%list
      /\ exists s', sessions w' !! p = Some s' /\ closed s' = false
                    /\ BackendConn s' = c.
Proof.
  intros Hp Hall. induction Hall as [|[env packet] rest Hne _ IH];
    intros w s Hs Hc Hconn.
  - exists w. simpl. rewrite app_nil_r. eauto 10.
  - cbn [OnPackets]. rewrite run_bind.
    rewrite (OnPacket_inbound_open env h ctx packet w p s Hp Hs Hc Hne).
    rewrite run_bind.
    destruct (IH (mkWorld (alter (setLastActivity (packetNow env)) p (sessions w))
                          (trace w ++ [EBackendWrite (BackendConn s) packet]))
                 (setLastActivity (packetNow env) s))
      as (w' & Hrun & Htr & Hs'); simpl;
      [apply lookup_touch, Hs | exact Hc | exact Hconn|].
    rewrite Hrun. exists w'. simpl.
    split_and!; [reflexivity | | exact Hs'].
    rewrite Htr. simpl. rewrite <- app_assoc, Hconn. reflexivity.
Qed.

(** X18.  Packets from the client reach the backend socket of the session in
    the order of the calls, one write per packet with the bytes as they
    came and no other call in between; a write that fails is reported
    as Drop with its error and does not stop later packets from being
    written. *)
Theorem OnPackets_in_order (packets : list (PacketEnv * list byte))
    (h : ForwarderHandler) (ctx : Context) (w : World)
    (p : SessionPtr) (s : Session) :
  CtxSession ctx = Some p -> sessions w !! p = Some s -> closed s = false ->
  Forall (fun ep => snd ep <> []) packets ->
  exists w',
    run (OnPackets h ctx Inbound packets) w
    = (Returns (map (fun ep => written (fst ep)) packets), w')
    /\ trace w'
       = (trace w
          ++ map (fun ep => EBackendWrite (BackendConn s) (snd ep)) packets)%list.
Proof.
  intros Hp Hs Hc Hall.
  destruct (OnPackets_run packets h ctx p (BackendConn s) Hp Hall w s Hs Hc eq_refl)
    as (w' & Hrun & Htr & _).
  exists w'. split; assumption.
Qed.

Lemma OnPackets_in_order_witness :
  let packets := [({| packetNow := 7; backendWriteErr := None |}, [x01]%byte);
                  ({| packetNow := 8; backendWriteErr := Some "refused" |},
                   [x02; x03]%byte)] in
  exists w',
    run (OnPackets {| sessionCounter := 1 |} (attach emptyContext 0) Inbound packets)
        (mkWorld [openSession] [])
    = (Returns (map (fun ep => written (fst ep)) packets), w')
    /\ trace w'
       = ([] ++ map (fun ep => EBackendWrite (BackendConn openSession) (snd ep))
                    packets)%list.
Proof.
  apply (OnPackets_in_order
           [({| packetNow := 7; backendWriteErr := None |}, [x01]%byte);
            ({| packetNow := 8; backendWriteErr := Some "refused" |},
             [x02; x03]%byte)]
           {| sessionCounter := 1 |} (attach emptyContext 0)
           (mkWorld [openSession] []) 0%nat openSession);
    try reflexivity.
  repeat constructor; simpl; discriminate.
Defined.

End ForwarderSequences.

(** ** forwarder: more on the pump *)

Section PumpMore.
Import Forwarder.

Lemma pumpRound_delivers (input : list byte * Z) (ctx : Context)
    (p : SessionPtr) (proxyConn : Conn) (w : World) (s : Session) :
  ProxyConn ctx = Some proxyConn ->
  sessions w !! p = Some s -> closed s = false ->
  run (pumpRound (delivers input) ctx p) w
  = (Returns true,
     mkWorld (alter (setLastActivity (snd input)) p (sessions w))
       (trace w ++ [EGetBuffer; ESetReadDeadline (BackendConn s);
                    EBackendRead (BackendConn s);
                    ENotifyServerPacket (fst input);
                    EClientWrite proxyConn (fst input) (clientAddr s);
                    EPutBuffer])).
Proof.
  intros Hpc Hs Hc. unfold pumpRound. simpl.
  rewrite Hs. simpl. rewrite Hc. simpl. rewrite Hs. simpl.
  rewrite Hs. simpl. rewrite Hc. simpl. rewrite Hpc. simpl.
  rewrite (lookup_touch _ _ _ _ Hs). simpl.
  rewrite <- !app_assoc. reflexivity.
Qed.

Lemma pump_delivers_all (inputs : list (list byte * Z)) (ctx : Context)
    (p : SessionPtr) (proxyConn : Conn) (c : Conn) (to : option UDPAddr) :
  ProxyConn ctx = Some proxyConn ->
  forall w s,
    sessions w !! p = Some s -> closed s = false ->
    BackendConn s = c -> clientAddr s = to ->
    exists w',
      run (backendToClient (map delivers inputs) ctx p) w = (Returns false, w')
      /\ clientWrites (trace w')
         = (clientWrites (trace w)
            ++ map (fun i => (proxyConn, fst i, to)) inputs)%list
      /\ notifications (trace w')
         = (notifications (trace w) ++ map fst inputs)%list.
Proof.
  intros Hpc. induction inputs as [|input rest IH]; intros w s Hs Hc Hconn Hto.
  - exists w. simpl. rewrite !app_nil_r. eauto.
  - cbn [map backendToClient]. rewrite run_bind.
    rewrite (pumpRound_delivers input ctx p proxyConn w s Hpc Hs Hc).
    destruct (IH (mkWorld (alter (setLastActivity (snd input)) p (sessions w))
                    (trace w ++ [EGetBuffer; ESetReadDeadline (BackendConn s);
                                 EBackendRead (BackendConn s);
                                 ENotifyServerPacket (fst input);
                                 EClientWrite proxyConn (fst input) (clientAddr s);
                                 EPutBuffer]))
                 (setLastActivity (snd input) s))
      as (w' & Hrun & Hcw & Hn); simpl;
      [apply lookup_touch, Hs | exact Hc | exact Hconn | exact Hto|].
    exists w'. split_and!; [exact Hrun | |].
    + rewrite Hcw. unfold clientWrites. simpl. rewrite omap_app. simpl.
      rewrite <- app_assoc, Hto. reflexivity.
    + rewrite Hn. unfold notifications. simpl. rewrite omap_app. simpl.
      rewrite <- app_assoc. reflexivity.
Qed.

(** X19.  The pump delivers in order.  While the backend socket yields
    datagrams and the writes to the client succeed, on an open session
    with the proxy's socket at hand, every datagram is written to the
    client once, as it was read and in the order read, through the
    proxy's socket to the client address of the session; the proxy is
    notified of the same datagrams in the same order; and the pump goes
    on waiting. *)
Theorem pump_delivers_in_order (inputs : list (list byte * Z)) (ctx : Context)
    (p : SessionPtr) (proxyConn : Conn) (w : World) (s : Session) :
  ProxyConn ctx = Some proxyConn ->
  sessions w !! p = Some s -> closed s = false ->
  exists w',
    run (backendToClient (map delivers inputs) ctx p) w = (Returns false, w')
    /\ clientWrites (trace w')
       = (clientWrites (trace w)
          ++ map (fun i => (proxyConn, fst i, clientAddr s)) inputs)%list
    /\ notifications (trace w')
       = (notifications (trace w) ++ map fst inputs)%list.
Proof.
  intros Hpc Hs Hc.
  apply (pump_delivers_all inputs ctx p proxyConn (BackendConn s) (clientAddr s)
           Hpc w s Hs Hc eq_refl eq_refl).
Qed.

Lemma pump_delivers_in_order_witness :
  let inputs := [([xc0; x01]%byte, 101); ([x40]%byte, 102)] in
  let ctx := attach (routedContext []) 0 in
  exists w',
    run (backendToClient (map delivers inputs) ctx 0) (mkWorld [openSession] [])
    = (Returns false, w')
    /\ clientWrites (trace w')
       = (clientWrites []
          ++ map (fun i => (3%nat, fst i, clientAddr openSession)) inputs)%list
    /\ notifications (trace w') = (notifications [] ++ map fst inputs)%list.
Proof.
  apply (pump_delivers_in_order [([xc0; x01]%byte, 101); ([x40]%byte, 102)]
           (attach (routedContext []) 0) 0%nat 3%nat (mkWorld [openSession] [])
           openSession);
    reflexivity.
Defined.

Lemma held_app (t1 t2 : list Event) : held (t1 ++ t2) = held t1 + held t2.
Proof.
  induction t1 as [|e rest IH]; simpl; [reflexivity|].
  destruct e; rewrite ?IH; lia.
Qed.

(** What a round of the pump adds to the trace, whatever it meets. *)
Lemma pumpRound_adds (env : PumpEnv) (ctx : Context) (session : SessionPtr)
    (w : World) :
  exists tr,
    trace (snd (run (pumpRound env ctx session) w)) = (trace w ++ tr)%list
    /\ held tr = 0
    /\ Forall (fun e => towardsBackend e = false) tr
    /\ (ProxyConn ctx = None -> clientWrites tr = []).
Proof.
  unfold pumpRound. simpl.
  destruct (sessions w !! session) as [s|] eqn:Hs; simpl.
  2:{ exists []. rewrite app_nil_r. split_and!; [reflexivity.. | constructor | reflexivity]. }
  destruct (closed s) eqn:Hc; simpl.
  { exists []. rewrite app_nil_r. split_and!; [reflexivity.. | constructor | reflexivity]. }
  rewrite Hs; simpl.
  destruct (readResult env) as [err|datagram]; simpl.
  { eexists. rewrite <- !app_assoc.
    split_and!; [reflexivity | reflexivity | repeat constructor | reflexivity]. }
  rewrite Hs; simpl. rewrite Hc; simpl.
  destruct (ProxyConn ctx) as [proxyConn|]; simpl.
  2:{ eexists. rewrite <- !app_assoc.
      split_and!; [reflexivity | reflexivity | repeat constructor | reflexivity]. }
  rewrite (lookup_touch _ _ _ _ Hs); simpl.
  destruct (clientWriteErr env); simpl;
    (eexists; rewrite <- !app_assoc;
     split_and!; [reflexivity | reflexivity | repeat constructor | discriminate]).
Qed.

Lemma backendToClient_adds (script : list PumpEnv) (ctx : Context)
    (session : SessionPtr) : forall w,
  exists tr,
    trace (snd (run (backendToClient script ctx session) w)) = (trace w ++ tr)%list
    /\ held tr = 0
    /\ Forall (fun e => towardsBackend e = false) tr
    /\ (ProxyConn ctx = None -> clientWrites tr = []).
Proof.
  induction script as [|env rest IH]; intros w.
  - exists []. simpl. rewrite app_nil_r.
    split_and!; [reflexivity.. | constructor | reflexivity].
  - cbn [backendToClient]. rewrite run_bind.
    destruct (pumpRound_adds env ctx session w) as (t1 & Ht1 & Hh1 & Hb1 & Hc1).
    destruct (run (pumpRound env ctx session) w) as [[again|msg] w1];
      simpl in Ht1; [|exists t1; split_and!; assumption].
    destruct again; simpl; [|exists t1; split_and!; assumption].
    destruct (IH w1) as (t2 & Ht2 & Hh2 & Hb2 & Hc2).
    exists (t1 ++ t2)%list. rewrite Ht2, Ht1, app_assoc.
    split_and!; [reflexivity | | apply Forall_app; split; assumption |].
    + rewrite held_app. lia.
    + intros Hnone. unfold clientWrites in *. rewrite omap_app.
      rewrite (Hc1 Hnone), (Hc2 Hnone). reflexivity.
Qed.

(** X20.  The pump gives back every buffer it takes: at each point between two
    rounds, and when it has returned for whatever reason, the buffers
    taken from the pool and the buffers put back are as many. *)
Theorem pump_buffers_balance (script : list PumpEnv) (ctx : Context)
    (session : SessionPtr) (w : World) :
  held (trace (snd (run (backendToClient script ctx session) w)))
  = held (trace w).
Proof.
  destruct (backendToClient_adds script ctx session w) as (tr & Htr & Hh & _).
  rewrite Htr, held_app, Hh. lia.
Qed.

(** X21.  The pump leaves the backend side to others: it neither dials,
    writes to nor closes any backend socket, whatever it reads; and on a
    context without the proxy's socket it writes nothing to any client
    either. *)
Theorem pump_only_reads_backend (script : list PumpEnv) (ctx : Context)
    (session : SessionPtr) (w : World) :
  exists tr,
    trace (snd (run (backendToClient script ctx session) w)) = (trace w ++ tr)%list
    /\ Forall (fun e => towardsBackend e = false) tr
    /\ (ProxyConn ctx = None -> clientWrites tr = []).
Proof.
  destruct (backendToClient_adds script ctx session w)
    as (tr & Htr & _ & Hb & Hc).
  exists tr. split_and!; assumption.
Qed.

End PumpMore.

(** ** forwarder: a write can follow the close *)

Section RaceFacts.
Import Forwarder.

(** X22.  The closed-flag check of [OnPacket] narrows the window for a write
    after the close but does not shut it.  When the listen task has
    passed the check and, before it writes, another task runs
    [OnDisconnect] to its end, the packet is written to the backend
    socket after that socket was closed. *)
Theorem write_after_close (env : PacketEnv) (h : ForwarderHandler)
    (ctx : Context) (packet : list byte) (w : World)
    (p : SessionPtr) (s : Session) :
  CtxSession ctx = Some p -> sessions w !! p = Some s -> closed s = false ->
  packet <> [] ->
  let m := schedule h ctx w
             [Start (CallOnPacket env packet Inbound); Start CallOnDisconnect;
              Step 0; Step 1; Step 1; Step 1; Step 0; Step 0; Step 0] in
  forallb ended (pool m) = true
  /\ trace (world m)
     = (trace w ++ [EBackendClose (BackendConn s);
                    EBackendWrite (BackendConn s) packet])%list.
Proof.
  intros Hp Hs Hc Hne.
  assert (Hlen : (p < length (sessions w))%nat)
    by (apply lookup_lt_Some in Hs; exact Hs).
  destruct packet as [|b rest]; [contradiction|].
  destruct ctx as [ca ip hl vs pc cs]. simpl in Hp. subst cs.
  unfold schedule, OnPacket, OnDisconnect; simpl.
  rewrite Hs. simpl. rewrite Hc. simpl.
  rewrite (list_lookup_insert_eq _ _ _ Hlen). simpl.
  rewrite list_lookup_alter_eq, (list_lookup_insert_eq _ _ _ Hlen). simpl.
  destruct (backendWriteErr env); simpl;
    (split; [reflexivity | rewrite <- app_assoc; reflexivity]).
Qed.

Lemma write_after_close_witness :
  let m := schedule {| sessionCounter := 1 |} (attach emptyContext 0)
             (mkWorld [openSession] [])
             [Start (CallOnPacket {| packetNow := 7; backendWriteErr := None |}
                       [x40; x01]%byte Inbound);
              Start CallOnDisconnect;
              Step 0; Step 1; Step 1; Step 1; Step 0; Step 0; Step 0] in
  forallb ended (pool m) = true
  /\ trace (world m)
     = ([] ++ [EBackendClose (BackendConn openSession);
               EBackendWrite (BackendConn openSession) [x40; x01]%byte])%list.
Proof.
  apply (write_after_close {| packetNow := 7; backendWriteErr := None |}
           {| sessionCounter := 1 |} (attach emptyContext 0) [x40; x01]%byte
           (mkWorld [openSession] []) 0%nat openSession);
    try reflexivity.
  discriminate.
Defined.

End RaceFacts.

(** ** sni-router and forwarder in a chain *)

Section ChainFacts.

(** X23.  The forwarder dials what the router chose.  After a Continue of the
    sni-router, [OnConnect] of the forwarder on the context the router
    returned resolves the backend the router wrote there: when it
    resolves and can be dialed and the first write goes through, the
    result is Handled and the new session holds that address and that
    socket.  A backend configured as the empty string passes the factory
    of the router, and every connection routed to it is dropped by the
    forwarder with [no backend address], nothing dialed. *)
Theorem route_then_forward (raw : RawMessage SniRouter.DynamicConfig)
    (h0 : SniRouter.DynamicHandler) (ctxs : list Context) (ctx : Context)
    (hello : ClientHello) (r0 : SniRouter.route) :
  SniRouter.NewDynamicHandler raw = inr h0 ->
  Hello ctx = Some hello -> SNI hello <> "" ->
  SniRouter.routes h0 !! SNI hello = Some r0 ->
  exists h1 h2 b ctx1,
    SniRouter.connects h0 ctxs = Returns h1
    /\ SniRouter.OnConnect h1 ctx = Returns (mkResult Continue None, ctx1, h2)
    /\ b ∈ SniRouter.backends r0
    /\ forall (net : Forwarder.ConnectEnv) (fh : Forwarder.ForwarderHandler)
              (w : Forwarder.World),
        (b = "" ->
         Forwarder.run (Forwarder.OnConnect net fh ctx1) w
         = (Returns (mkResult Drop (Some "no backend address"), ctx1, fh), w))
        /\ (forall addr conn,
              b <> "" ->
              Forwarder.ResolveUDPAddr net b = inr addr ->
              Forwarder.DialUDP net addr = inr conn ->
              Forwarder.initialWriteErr net = None ->
              exists ctx2 fh' w' s,
                Forwarder.run (Forwarder.OnConnect net fh ctx1) w
                = (Returns (mkResult Handled None, ctx2, fh'), w')
                /\ CtxSession ctx2 = Some (length (Forwarder.sessions w))
                /\ Forwarder.sessions w' !! length (Forwarder.sessions w) = Some s
                /\ Forwarder.BackendAddr s = addr
                /\ Forwarder.BackendConn s = conn
                /\ Forwarder.closed s = false).
Proof.
  intros Hnew Hh Hsni Hr0.
  destruct (NewDynamicHandler_ok _ _ Hnew) as [Hok _].
  destruct (connects_routes ctxs h0 Hok) as (h1 & Hrun & Hok1 & _ & Hbs).
  specialize (Hbs (SNI hello)). rewrite Hr0 in Hbs.
  destruct (SniRouter.routes h1 !! SNI hello) as [r1|] eqn:Hr1;
    [|discriminate Hbs].
  injection Hbs as Hbs.
  destruct (OnConnect_known _ _ _ _ Hh Hsni Hr1 (proj1 (Hok1 _ _ Hr1)))
    as (b & Hb & Hstep).
  eexists h1, _, b, _. split_and!; [exact Hrun | exact Hstep | |].
  { rewrite <- Hbs. apply list_elem_of_lookup. eauto. }
  intros net fh w.
  assert (Hget : GetString (Set_ ctx "backend" (VString b)) "backend" = b)
    by (unfold GetString, Set_; simpl; rewrite lookup_insert_eq; reflexivity).
  split.
  - intros ->. unfold Forwarder.OnConnect. rewrite Hget. reflexivity.
  - intros addr conn Hne Hres Hdial Herr.
    unfold Forwarder.OnConnect. rewrite Hget.
    destruct (decide (b = "")); [contradiction|].
    rewrite Hres, Hdial. simpl.
    destruct (InitialPacket ctx) as [|x rest]; simpl.
    + do 4 eexists.
      split_and!;
        [reflexivity | reflexivity
         | simpl; apply list_lookup_middle; reflexivity
         | reflexivity..].
    + rewrite Herr. simpl.
      do 4 eexists.
      split_and!;
        [reflexivity | reflexivity
         | simpl; apply list_lookup_middle; reflexivity
         | reflexivity..].
Qed.

Lemma route_then_forward_witness :
  let h0 := {| SniRouter.routes :=
                 {[ "a.com" := SniRouter.mkRoute ["127.0.0.1:9"] 0 ]} |} in
  let ctx := SniRouter.helloContext "a.com" in
  let r0 := SniRouter.mkRoute ["127.0.0.1:9"] 0 in
  exists h1 h2 b ctx1,
    SniRouter.connects h0 [] = Returns h1
    /\ SniRouter.OnConnect h1 ctx = Returns (mkResult Continue None, ctx1, h2)
    /\ b ∈ SniRouter.backends r0
    /\ forall (net : Forwarder.ConnectEnv) (fh : Forwarder.ForwarderHandler)
              (w : Forwarder.World),
        (b = "" ->
         Forwarder.run (Forwarder.OnConnect net fh ctx1) w
         = (Returns (mkResult Drop (Some "no backend address"), ctx1, fh), w))
        /\ (forall addr conn,
              b <> "" ->
              Forwarder.ResolveUDPAddr net b = inr addr ->
              Forwarder.DialUDP net addr = inr conn ->
              Forwarder.initialWriteErr net = None ->
              exists ctx2 fh' w' s,
                Forwarder.run (Forwarder.OnConnect net fh ctx1) w
                = (Returns (mkResult Handled None, ctx2, fh'), w')
                /\ CtxSession ctx2 = Some (length (Forwarder.sessions w))
                /\ Forwarder.sessions w' !! length (Forwarder.sessions w) = Some s
                /\ Forwarder.BackendAddr s = addr
                /\ Forwarder.BackendConn s = conn
                /\ Forwarder.closed s = false).
Proof.
  apply (route_then_forward
           (RawDecodes {| SniRouter.Routes := [("a.com", SniRouter.JString "127.0.0.1:9")] |})
           {| SniRouter.routes :=
                {[ "a.com" := SniRouter.mkRoute ["127.0.0.1:9"] 0 ]} |}
           [] (SniRouter.helloContext "a.com") {| SNI := "a.com"; ALPN := [] |}
           (SniRouter.mkRoute ["127.0.0.1:9"] 0));
    try reflexivity.
  discriminate.
Defined.

End ChainFacts.

(** ** forwarder: the close on the failure path of OnConnect *)

Section CloseOnFailedConnect.
Import Forwarder.

(** C1 fails on the failure path of [OnConnect].  When the first write
    to the socket just dialed fails, [OnConnect] closes that socket
    itself, without the compare-and-swap on the closed-flag that
    [OnDisconnect] uses, and returns Drop with the session attached to
    the context and its flag clear.  The [OnDisconnect] on that context
    then finds the flag clear, sets it and closes the socket again: the
    backend socket of the session is closed twice. *)
Theorem OnConnect_write_failure_closes_twice (net : ConnectEnv)
    (h : ForwarderHandler) (ctx : Context) (w : World)
    (backendAddr : UDPAddr) (backendConn : Conn) (err : string) :
  GetString ctx "backend" <> "" ->
  ResolveUDPAddr net (GetString ctx "backend") = inr backendAddr ->
  DialUDP net backendAddr = inr backendConn ->
  InitialPacket ctx <> [] ->
  initialWriteErr net = Some err ->
  exists ctx' h' w1 w2 p s,
    run (OnConnect net h ctx) w
    = (Returns (mkResult Drop (Some err), ctx', h'), w1)
    /\ CtxSession ctx' = Some p
    /\ sessions w1 !! p = Some s
    /\ BackendConn s = backendConn /\ closed s = false
    /\ closes backendConn (trace w1) = S (closes backendConn (trace w))
    /\ run (OnDisconnect h' ctx') w1 = (Returns tt, w2)
    /\ closes backendConn (trace w2) = S (S (closes backendConn (trace w))).
Proof.
  intros Hb Hres Hdial Hinit Herr.
  set (s := {| ID := wrap64 (sessionCounter h + 1); BackendAddr := backendAddr;
               BackendConn := backendConn; CreatedAt := connectNow net;
               clientAddr := ClientAddr ctx; LastActivity := connectNow net;
               closed := false |}).
  set (p := length (sessions w)).
  set (w1 := mkWorld (sessions w ++ [s])
               (trace w ++ [EDial backendConn backendAddr;
                            EBackendWrite backendConn (InitialPacket ctx);
                            EBackendClose backendConn])).
  assert (Hrun : run (OnConnect net h ctx) w
                 = (Returns (mkResult Drop (Some err), attach ctx p,
                             {| sessionCounter := wrap64 (sessionCounter h + 1) |}),
                    w1)).
  { unfold OnConnect.
    destruct (decide (GetString ctx "backend" = "")); [contradiction|].
    rewrite Hres, Hdial. simpl.
    destruct (InitialPacket ctx) as [|b rest] eqn:E; [contradiction|]. simpl.
    rewrite Herr. simpl. unfold w1. rewrite <- !app_assoc. reflexivity. }
  assert (Hs : sessions w1 !! p = Some s)
    by (simpl; apply list_lookup_middle; reflexivity).
  assert (Hc1 : closes backendConn (trace w1)
                = S (closes backendConn (trace w))).
  { unfold w1. simpl. rewrite closes_app. simpl.
    destruct (decide (backendConn = backendConn)); [lia | contradiction]. }
  exists (attach ctx p), {| sessionCounter := wrap64 (sessionCounter h + 1) |},
         w1, (mkWorld (<[p := markClosed s]> (sessions w1))
                      (trace w1 ++ [EBackendClose (BackendConn s)])), p, s.
  split_and!; try reflexivity; try assumption.
  - apply (OnDisconnect_open _ (attach ctx p) w1 p s eq_refl Hs eq_refl).
  - cbn [trace]. rewrite closes_app, Hc1. simpl.
    destruct (decide (backendConn = backendConn)); [lia | contradiction].
Qed.

Lemma OnConnect_write_failure_closes_twice_witness :
  exists ctx' h' w1 w2 p s,
    run (OnConnect unwritable {| sessionCounter := 0 |}
           (routedContext [xc3; x00]%byte)) (mkWorld [] [])
    = (Returns (mkResult Drop (Some "write: connection refused"), ctx', h'), w1)
    /\ CtxSession ctx' = Some p
    /\ sessions w1 !! p = Some s
    /\ BackendConn s = 5%nat /\ closed s = false
    /\ closes 5 (trace w1) = S (closes 5 [])
    /\ run (OnDisconnect h' ctx') w1 = (Returns tt, w2)
    /\ closes 5 (trace w2) = S (S (closes 5 [])).
Proof.
  apply (OnConnect_write_failure_closes_twice unwritable
           {| sessionCounter := 0 |} (routedContext [xc3; x00]%byte)
           (mkWorld [] []) backendAddress 5%nat "write: connection refused");
    try reflexivity; discriminate.
Defined.

End CloseOnFailedConnect.
